(** * twitter.js: the manager / cache / resolvable layer

    A shallow embedding of [SpaceManager] (TypeScript revision) and of
    [UserManager] (JavaScript revision), followed by the properties of
    their resolve -> cache-check -> fetch pipeline.

    Conventions.
    - Run-time values that the managers probe dynamically ([typeof],
      [in], [Array.isArray], truthiness) are values of the type
      [JS.value].
    - A method that awaits the transport or writes to the cache is a
      computation in the state-and-exception monad [Eff.M]: the state is
      the manager ([cache] plus the log of transport calls it issued),
      an exception is a thrown error or a rejected promise.
    - The transport is an oracle: the reply to a call is a function of
      the calls logged so far and of the request. *)

From Stdlib Require Import Ascii String List ZArith Bool Lia.
Import ListNotations.
Open Scope string_scope.
Set Warnings "-register-all".

(** ** Identifiers, raw payloads and entities *)

Definition Snowflake := string.

(** A raw space of the remote API: the program reads its [id] only. *)
Record APISpace := mkAPISpace {
  api_space_id : Snowflake;
  api_space_fields : string
}.

(** The [includes] section of an envelope, passed through unread. *)
Definition APIIncludes := string.

(** [new Space(client, { data, includes })]. *)
Record Space := mkSpace {
  space_id : Snowflake;
  space_data : APISpace;
  space_includes : option APIIncludes
}.

Record User := mkUser {
  user_id : Snowflake;
  user_username : string
}.

(** ** JavaScript values and the dynamic tests the managers perform *)

Module JS.

Inductive value : Type :=
| VUndefined
| VNull
| VBool (b : bool)
| VNum (n : Z)
| VStr (s : string)
| VArr (items : list value)
| VObj (fields : list (string * value))
| VSpace (sp : Space)
| VUser (u : User).

Inductive jstype := TUndefined | TObject | TBoolean | TNumber | TString.

Definition jstype_eqb (a b : jstype) : bool :=
  match a, b with
  | TUndefined, TUndefined | TObject, TObject | TBoolean, TBoolean
  | TNumber, TNumber | TString, TString => true
  | _, _ => false
  end.

(** [typeof v]; [typeof null] is ['object']. *)
Definition typeof (v : value) : jstype :=
  match v with
  | VUndefined => TUndefined
  | VNull => TObject
  | VBool _ => TBoolean
  | VNum _ => TNumber
  | VStr _ => TString
  | VArr _ | VObj _ | VSpace _ | VUser _ => TObject
  end.

(** [!!v]. *)
Definition truthy (v : value) : bool :=
  match v with
  | VUndefined | VNull => false
  | VBool b => b
  | VNum n => negb (n =? 0)%Z
  | VStr s => negb (s =? "")
  | VArr _ | VObj _ | VSpace _ | VUser _ => true
  end.

Definition isArray (v : value) : bool :=
  match v with VArr _ => true | _ => false end.

(** First binding of a key in an object literal's field list. *)
Fixpoint lookup (k : string) (fields : list (string * value)) : option value :=
  match fields with
  | [] => None
  | (k', v) :: rest => if k' =? k then Some v else lookup k rest
  end.

Inductive error :=
| CustomTypeError (code : string) (args : list string)
| TypeError (msg : string)
| RemoteApiError (detail : string).

Inductive outcome (A : Type) :=
| Return (a : A)
| Throw (e : error).
Arguments Return {A} a.
Arguments Throw {A} e.

(** [k in v]: a [TypeError] on a non-object.  Arrays and entity
    instances carry none of the option names the managers probe. *)
Definition has_property (k : string) (v : value) : outcome bool :=
  match v with
  | VObj fields =>
      Return (match lookup k fields with Some _ => true | None => false end)
  | VArr _ => Return false
  | VSpace _ => Return (k =? "id")
  | VUser _ => Return ((k =? "id") || (k =? "username"))
  | _ => Throw (TypeError "Cannot use 'in' operator")
  end.

(** [v.k]: a [TypeError] on [undefined] and [null], [undefined] for a
    property that is not there. *)
Definition prop (v : value) (k : string) : outcome value :=
  match v with
  | VUndefined | VNull => Throw (TypeError "Cannot read properties")
  | VObj fields =>
      Return (match lookup k fields with Some x => x | None => VUndefined end)
  | VArr items =>
      Return (if k =? "length" then VNum (Z.of_nat (length items)) else VUndefined)
  | VSpace sp => Return (if k =? "id" then VStr (space_id sp) else VUndefined)
  | VUser u =>
      Return (if k =? "id" then VStr (user_id u)
              else if k =? "username" then VStr (user_username u)
              else VUndefined)
  | VStr s =>
      Return (if k =? "length" then VNum (Z.of_nat (String.length s)) else VUndefined)
  | VBool _ | VNum _ => Return VUndefined
  end.

(** [s === v] for a string [s]. *)
Definition strict_eq_str (s : string) (v : value) : bool :=
  match v with VStr t => s =? t | _ => false end.

End JS.
Import JS.

(** ** Errors of the library

    [CustomTypeError] carries a message code.  The taxonomy of the
    design: a bad option shape is an invalid argument, a resolvable
    without an ID is a resolution error. *)

Definition INVALID_TYPE := "INVALID_TYPE".
Definition INVALID_FETCH_OPTIONS := "INVALID_FETCH_OPTIONS".
Definition SPACE_RESOLVE_ID := "SPACE_RESOLVE_ID".
Definition USER_RESOLVE_ID := "USER_RESOLVE_ID".

Definition is_InvalidArgument (e : error) : bool :=
  match e with
  | CustomTypeError code _ => (code =? INVALID_TYPE) || (code =? INVALID_FETCH_OPTIONS)
  | _ => false
  end.

Definition is_ResolutionError (e : error) : bool :=
  match e with
  | CustomTypeError code _ => (code =? SPACE_RESOLVE_ID) || (code =? USER_RESOLVE_ID)
  | _ => false
  end.

(** ** The state-and-exception monad of the managers *)

Module Eff.

Definition M (S A : Type) : Type := S -> outcome A * S.

Definition ret {S A} (a : A) : M S A := fun s => (Return a, s).

Definition throw {S A} (e : error) : M S A := fun s => (Throw e, s).

Definition bind {S A B} (m : M S A) (k : A -> M S B) : M S B :=
  fun s =>
    match m s with
    | (Return a, s') => k a s'
    | (Throw e, s') => (Throw e, s')
    end.

(** A pure step that may throw. *)
Definition lift {S A} (o : outcome A) : M S A := fun s => (o, s).

Definition gets {S A} (f : S -> A) : M S A := fun s => (Return (f s), s).

Definition modify {S} (f : S -> S) : M S unit := fun s => (Return tt, f s).

End Eff.
Import Eff.

Notation "x <- m ;; k" := (bind m (fun x => k))
  (at level 61, m at next level, right associativity).
Notation "m ;;; k" := (bind m (fun _ => k))
  (at level 61, right associativity).

(** ** Collection *)

Module Collection.

(** Modelled from the spec: the [Collection] class (the cache, "a keyed
    mapping from canonical ID to entity", and the result of a
    multi-fetch) is not among the sources.  It is a [Map] whose entries
    are kept in insertion order. *)
Definition t (V : Type) : Type := list (Snowflake * V).

Definition empty {V} : t V := [].

(** Modelled from the spec: [Map.prototype.get] of the absent
    [Collection]. *)
Fixpoint get {V} (k : Snowflake) (c : t V) : option V :=
  match c with
  | [] => None
  | (k', v) :: rest => if k' =? k then Some v else get k rest
  end.

(** Modelled from the spec: [Map.prototype.set] of the absent
    [Collection]; a present key keeps its place ("upsert"), a new key is
    appended. *)
Fixpoint set {V} (k : Snowflake) (v : V) (c : t V) : t V :=
  match c with
  | [] => [(k, v)]
  | (k', v') :: rest =>
      if k' =? k then (k, v) :: rest else (k', v') :: set k v rest
  end.

(** Modelled from the spec: [find] of the absent [Collection], the
    "scan [of] the cache for an entry whose secondary key matches"; the
    first match in insertion order. *)
Fixpoint find {V} (p : V -> bool) (c : t V) : option V :=
  match c with
  | [] => None
  | (_, v) :: rest => if p v then Some v else find p rest
  end.

Definition size {V} (c : t V) : nat := length c.

End Collection.

(** A reply of the transport: the awaited promise resolves to an
    envelope or rejects. *)
Inductive reply (A : Type) :=
| Resolved (a : A)
| Rejected (detail : string).
Arguments Resolved {A} a.
Arguments Rejected {A} detail.

(** [meta] of an envelope. *)
Record Meta := mkMeta {
  result_count : Z;
  next_token : option string
}.

(** The envelope [{ data, includes?, meta? }] as it arrives: any of the
    three fields may be missing.  [D] is [APISpace] for a single lookup;
    for the others it is a list of raw spaces, any element of which may
    be [null] ([None]). *)
Record Envelope (D : Type) := mkEnvelope {
  env_data : option D;
  env_includes : option APIIncludes;
  env_meta : option Meta
}.
Arguments mkEnvelope {D} _ _ _.
Arguments env_data {D} _.
Arguments env_includes {D} _.
Arguments env_meta {D} _.

(** ** SpaceManager (TypeScript revision) *)

Module SpaceManager.

(** One request of the manager to the transport, with the IDs it
    carries.  The decorations taken from [client.options.queryParameters]
    (expansions and field lists) are constants of the session and are
    left out. *)
Inductive Request :=
| GetSingleSpaceById (spaceId : Snowflake)
| GetMultipleSpacesByIds (ids : list Snowflake)
| GetMultipleSpacesByCreatorIds (user_ids : list Snowflake)
| GetMultipleSpacesBySearch (query max_results state : value).

(** What the manager is given by its client: the transport
    ([client._api]), the resolver of the user manager
    ([client.users.resolveId]) and the ID format of the base manager. *)
Record Client := mkClient {
  id_format : string -> bool;
  api_one : list Request -> Request -> reply (Envelope APISpace);
  api_many : list Request -> Request -> reply (Envelope (list (option APISpace)));
  users_resolveId : value -> option Snowflake
}.

(** The manager: its cache and the transport calls issued so far. *)
Record state := mkState {
  cache : Collection.t Space;
  calls : list Request
}.

(** The result of [fetch]: a space or a collection of spaces. *)
Inductive fetched :=
| One (space : Space)
| Many (spaces : Collection.t Space).

(** [if (!id)] on a [Snowflake | null]: [null] and the empty string are
    falsy. *)
Definition truthy_id (id : option Snowflake) : option Snowflake :=
  match id with
  | Some s => if s =? "" then None else Some s
  | None => None
  end.

(** [await endpoint.get(requestData)]: the call is logged, the reply is
    the oracle's; a rejection is thrown. *)
Definition request {A} (r : Request)
    (oracle : list Request -> Request -> reply A) : M state A :=
  fun s =>
    let s' := {| cache := cache s; calls := (calls s ++ [r])%list |} in
    match oracle (calls s) r with
    | Resolved a => (Return a, s')
    | Rejected detail => (Throw (RemoteApiError detail), s')
    end.

Section WithClient.

Variable client : Client.

(** Modelled from the spec: [BaseManager.resolveId], not among the
    sources.  "If input is already an Entity instance, return its ID";
    "if input is a canonical ID (format validated, e.g. numeric string),
    return it directly"; the base manager of spaces knows no secondary
    key, so anything else is [null]. *)
Definition resolveId (resolvable : value) : option Snowflake :=
  match resolvable with
  | VSpace sp => Some (space_id sp)
  | VStr s => if id_format client s then Some s else None
  | _ => None
  end.

(** Modelled from the spec: [BaseManager._add], not among the sources.
    "Construct the Entity from the raw response (merging any auxiliary
    includes payload), upsert into cache unless [cacheAfterFetching] is
    false (default true), and return it." *)
Definition _add (id : Snowflake) (data : APISpace) (includes : option APIIncludes)
    (cacheAfterFetching : value) : M state Space :=
  let entry := mkSpace (api_space_id data) data includes in
  match cacheAfterFetching with
  | VBool false => ret entry
  | _ =>
      modify (fun s => {| cache := Collection.set id entry (cache s);
                          calls := calls s |}) ;;;
      ret entry
  end.

(** [#fetchSingleSpace(spaceId, options)]. *)
Definition fetchSingleSpace (spaceId : Snowflake) (options : value) : M state Space :=
  skipCacheCheck <- lift (prop options "skipCacheCheck") ;;
  cachedSpace <- (if negb (truthy skipCacheCheck)
                  then gets (fun s => Collection.get spaceId (cache s))
                  else ret None) ;;
  match cachedSpace with
  | Some sp => ret sp
  | None =>
      data <- request (GetSingleSpaceById spaceId) (api_one client) ;;
      match env_data data with
      | None => throw (TypeError "Cannot read properties of undefined (reading 'id')")
      | Some raw =>
          cacheAfterFetching <- lift (prop options "cacheAfterFetching") ;;
          _add (api_space_id raw) raw (env_includes data) cacheAfterFetching
      end
  end.

(** The loop [for (const rawSpace of rawSpaces)] shared by the three
    multi-fetch methods.  Reading [rawSpace.id] of a [null] element
    throws, after the elements before it have been added. *)
Fixpoint add_each (rawSpaces : list (option APISpace)) (includes : option APIIncludes)
    (options : value) (fetchedSpaceCollection : Collection.t Space)
    : M state (Collection.t Space) :=
  match rawSpaces with
  | [] => ret fetchedSpaceCollection
  | None :: _ => throw (TypeError "Cannot read properties of null (reading 'id')")
  | Some rawSpace :: rest =>
      cacheAfterFetching <- lift (prop options "cacheAfterFetching") ;;
      space <- _add (api_space_id rawSpace) rawSpace includes cacheAfterFetching ;;
      add_each rest includes options
        (Collection.set (space_id space) space fetchedSpaceCollection)
  end.

(** [for ... of] on the [data] field of an envelope: a [TypeError] when
    the field is missing. *)
Definition iterate_data (data : Envelope (list (option APISpace))) (options : value)
    : M state (Collection.t Space) :=
  match env_data data with
  | None => throw (TypeError "rawSpaces is not iterable")
  | Some rawSpaces => add_each rawSpaces (env_includes data) options Collection.empty
  end.

(** [#fetchMultipleSpaces(spaceIds, options)]. *)
Definition fetchMultipleSpaces (spaceIds : list Snowflake) (options : value)
    : M state (Collection.t Space) :=
  data <- request (GetMultipleSpacesByIds spaceIds) (api_many client) ;;
  iterate_data data options.

(** [array.map(x => { const id = resolve(x); if (!id) throw ...; return id })]. *)
Fixpoint resolve_each (resolve : value -> option Snowflake) (e : error)
    (items : list value) : outcome (list Snowflake) :=
  match items with
  | [] => Return []
  | x :: rest =>
      match truthy_id (resolve x) with
      | None => Throw e
      | Some id =>
          match resolve_each resolve e rest with
          | Return ids => Return (id :: ids)
          | Throw e' => Throw e'
          end
      end
  end.

(** [fetch(options)]. *)
Definition fetch (options : value) : M state fetched :=
  if negb (jstype_eqb (typeof options) TObject)
  then throw (CustomTypeError INVALID_TYPE ["options"; "object"])
  else
    hasSpace <- lift (has_property "space" options) ;;
    if hasSpace : bool then
      space <- lift (prop options "space") ;;
      match truthy_id (resolveId space) with
      | None => throw (CustomTypeError SPACE_RESOLVE_ID [])
      | Some spaceId =>
          sp <- fetchSingleSpace spaceId options ;;
          ret (One sp)
      end
    else
      hasSpaces <- lift (has_property "spaces" options) ;;
      if hasSpaces : bool then
        spaces <- lift (prop options "spaces") ;;
        match spaces with
        | VArr items =>
            spaceIds <- lift (resolve_each resolveId
                                (CustomTypeError SPACE_RESOLVE_ID []) items) ;;
            c <- fetchMultipleSpaces spaceIds options ;;
            ret (Many c)
        | _ => throw (CustomTypeError INVALID_TYPE ["spaces"; "array"])
        end
      else throw (CustomTypeError INVALID_FETCH_OPTIONS []).

(** The guard [if (data.meta.result_count === 0) return ...] followed by
    the loop; reading [result_count] of a missing [meta] is a
    [TypeError]. *)
Definition unless_empty (data : Envelope (list (option APISpace))) (options : value)
    : M state (Collection.t Space) :=
  match env_meta data with
  | None => throw (TypeError "Cannot read properties of undefined (reading 'result_count')")
  | Some meta =>
      if (result_count meta =? 0)%Z then ret Collection.empty
      else iterate_data data options
  end.

(** [fetchByCreatorIds(options)]. *)
Definition fetchByCreatorIds (options : value) : M state (Collection.t Space) :=
  if negb (jstype_eqb (typeof options) TObject)
  then throw (CustomTypeError INVALID_TYPE ["options"; "object"])
  else
    users <- lift (prop options "users") ;;
    match users with
    | VArr items =>
        userIds <- lift (resolve_each (users_resolveId client)
                           (CustomTypeError USER_RESOLVE_ID ["fetch spaces of"]) items) ;;
        data <- request (GetMultipleSpacesByCreatorIds userIds) (api_many client) ;;
        unless_empty data options
    | _ => throw (CustomTypeError INVALID_TYPE ["users"; "array"])
    end.

(** [search(options)]. *)
Definition search (options : value) : M state (Collection.t Space) :=
  query <- lift (prop options "query") ;;
  maxResults <- lift (prop options "maxResults") ;;
  state <- lift (prop options "state") ;;
  data <- request (GetMultipleSpacesBySearch query maxResults state) (api_many client) ;;
  unless_empty data options.

End WithClient.

End SpaceManager.

(** ** UserManager (JavaScript revision) *)

Module UserManager.

(** One call of the manager to [client.rest], with the query it is
    handed. *)
Inductive RestCall :=
| FetchUserById (query : value)
| FetchUserByUsername (query : value)
| FetchUsersByIds (query : list value)
| FetchUsersByUsernames (query : list value).

(** The two constants of [queryTypes] in [util/Constants.js]. *)
Inductive queryType := ID | USERNAME.

(** What the manager is given by its client: the REST collaborator, the
    two helpers that shape a response, and the ID format of the base
    manager.  [userBuilder] receives the client and may therefore write
    to the cache. *)
Record Client := mkClient {
  id_format : string -> bool;
  rest : list RestCall -> RestCall -> reply value;
  userBuilder : value -> Collection.t User -> value * Collection.t User;
  cleanFetchManyUsersResponse : list value -> value
}.

(** The manager: its cache and the REST calls issued so far. *)
Record state := mkState {
  cache : Collection.t User;
  calls : list RestCall
}.

(** [await this.client.rest.f(query)]. *)
Definition request (client : Client) (r : RestCall) : M state value :=
  fun s =>
    let s' := {| cache := cache s; calls := (calls s ++ [r])%list |} in
    match rest client (calls s) r with
    | Resolved a => (Return a, s')
    | Rejected detail => (Throw (RemoteApiError detail), s')
    end.

Section WithClient.

Variable client : Client.

(** Modelled from the spec: [BaseManager.resolveID], not among the
    sources.  "If input is already an Entity instance, return its ID";
    "if input is a canonical ID (format validated, e.g. numeric string),
    return it directly"; otherwise [null]. *)
Definition base_resolveID (idOrInstance : value) : value :=
  match idOrInstance with
  | VUser u => VStr (user_id u)
  | VStr s => if id_format client s then VStr s else VNull
  | _ => VNull
  end.

(** Modelled from the spec: [BaseManager.resolve], not among the
    sources.  "If input is already an Entity instance, return itself
    directly (no lookup)"; "[resolve] builds on [resolveId] plus a cache
    lookup; if resolution fails, returns null rather than throwing". *)
Definition base_resolve (this : state) (idOrInstance : value) : value :=
  match idOrInstance with
  | VUser u => VUser u
  | _ =>
      match base_resolveID idOrInstance with
      | VStr id =>
          match Collection.get id (cache this) with
          | Some u => VUser u
          | None => VNull
          end
      | _ => VNull
      end
  end.

(** [this.cache.find(user => user.username === userResolvable)];
    [undefined] when no entry matches. *)
Definition find_by_username (this : state) (userResolvable : value) : option User :=
  Collection.find (fun user => strict_eq_str (user_username user) userResolvable)
    (cache this).

(** [resolve(userResolvable)]. *)
Definition resolve (this : state) (userResolvable : value) : value :=
  let user := base_resolve this userResolvable in
  if truthy user then user
  else
    let userID := base_resolveID userResolvable in
    if truthy userID then base_resolve this userID
    else if jstype_eqb (typeof userResolvable) TString then
      match find_by_username this userResolvable with
      | Some u => VUser u
      | None => VUndefined
      end
    else VNull.

(** [resolveID(userResolvable)]; [x?.id] is [undefined] when [x] is. *)
Definition resolveID (this : state) (userResolvable : value) : value :=
  let userID := base_resolveID userResolvable in
  if truthy userID then userID
  else if jstype_eqb (typeof userResolvable) TString then
    match find_by_username this userResolvable with
    | Some u => VStr (user_id u)
    | None => VUndefined
    end
  else VNull.

(** [_fetchSingle(query, queryType)]. *)
Definition _fetchSingle (query : value) (qt : queryType) : M state value :=
  match qt with
  | ID => request client (FetchUserById query)
  | USERNAME => request client (FetchUserByUsername query)
  end.

(** [_fetchMany(query, queryType)]. *)
Definition _fetchMany (query : list value) (qt : queryType) : M state value :=
  match qt with
  | ID => request client (FetchUsersByIds query)
  | USERNAME => request client (FetchUsersByUsernames query)
  end.

(** [userBuilder(this.client, userData)]. *)
Definition build (userData : value) : M state value :=
  fun s =>
    let (built, c) := userBuilder client userData (cache s) in
    (Return built, {| cache := c; calls := calls s |}).

(** The body of [options.user.forEach]: push the ID, else push the
    string, else nothing.  The pair is [(userIdsArray, userNamesArray)]. *)
Definition sort_resolvable (this : state) (arrays : list value * list value)
    (userResolvable : value) : list value * list value :=
  let userID := resolveID this userResolvable in
  if truthy userID then ((fst arrays ++ [userID])%list, snd arrays)
  else if jstype_eqb (typeof userResolvable) TString
       then (fst arrays, (snd arrays ++ [userResolvable])%list)
       else arrays.

Definition buckets (this : state) (items : list value) : list value * list value :=
  fold_left (sort_resolvable this) items ([], []).

Definition nonempty {A} (l : list A) : bool :=
  match l with [] => false | _ => true end.

(** The partition in the words of the design: the "already canonical
    ID" bucket holds the IDs of the resolvables that resolve, the
    "secondary key" bucket the strings that do not. *)
Definition id_bucket (this : state) (items : list value) : list value :=
  map (resolveID this) (filter (fun x => truthy (resolveID this x)) items).

Definition username_bucket (this : state) (items : list value) : list value :=
  filter (fun x => negb (truthy (resolveID this x)) && jstype_eqb (typeof x) TString)
    items.


(** The array branch of [fetch]: one [_fetchMany] per non-empty array. *)
Definition fetch_array (items : list value) : M state value :=
  arrays <- gets (fun s => buckets s items) ;;
  let userIdsArray := fst arrays in
  let userNamesArray := snd arrays in
  usersResponse <- (if nonempty userIdsArray
                    then r <- _fetchMany userIdsArray ID ;; ret [r]
                    else ret []) ;;
  usersResponse <- (if nonempty userNamesArray
                    then r <- _fetchMany userNamesArray USERNAME ;;
                         ret (usersResponse ++ [r])%list
                    else ret usersResponse) ;;
  build (cleanFetchManyUsersResponse client usersResponse).

(** [fetch(options)]; falling off the end returns [undefined]. *)
Definition fetch (options : value) : M state value :=
  userID <- gets (fun s => resolveID s options) ;;
  if truthy userID then
    userData <- _fetchSingle userID ID ;;
    build userData
  else if jstype_eqb (typeof options) TString then
    userData <- _fetchSingle options USERNAME ;;
    build userData
  else
    user <- lift (prop options "user") ;;
    if truthy user then
      match user with
      | VArr items => fetch_array items
      | _ =>
          userID <- gets (fun s => resolveID s user) ;;
          if truthy userID then
            userData <- _fetchSingle user ID ;;
            build userData
          else if jstype_eqb (typeof user) TString then
            userData <- _fetchSingle user USERNAME ;;
            build userData
          else ret VUndefined
      end
    else ret VUndefined.

End WithClient.

End UserManager.

(** ** Concrete sessions

    Small clients, caches and options on which the managers are run in
    the examples below. *)

Module Session.

Definition is_digit (c : Ascii.ascii) : bool :=
  let n := Ascii.nat_of_ascii c in (48 <=? n)%nat && (n <=? 57)%nat.

Fixpoint all_digits (s : string) : bool :=
  match s with
  | EmptyString => true
  | String c rest => is_digit c && all_digits rest
  end.

(** The ID format "numeric string". *)
Definition numeric_id (s : string) : bool :=
  negb (s =? "") && all_digits s.

Definition resolve_numeric (v : value) : option Snowflake :=
  match v with
  | VStr s => if numeric_id s then Some s else None
  | _ => None
  end.

(** An envelope that signals zero results: [{ meta: { result_count: 0 } }]. *)
Definition no_results {D} : Envelope D :=
  mkEnvelope None None (Some (mkMeta 0 None)).

(** A transport that finds nothing. *)
Definition barren : SpaceManager.Client :=
  SpaceManager.mkClient numeric_id
    (fun _ _ => Resolved no_results)
    (fun _ _ => Resolved no_results)
    resolve_numeric.

Definition raw_space (id : Snowflake) : APISpace := mkAPISpace id "{}".

(** A transport that finds every space it is asked for. *)
Definition obliging : SpaceManager.Client :=
  SpaceManager.mkClient numeric_id
    (fun _ r =>
       match r with
       | SpaceManager.GetSingleSpaceById id =>
           Resolved (mkEnvelope (Some (raw_space id)) None None)
       | _ => Rejected "404"
       end)
    (fun _ r =>
       match r with
       | SpaceManager.GetMultipleSpacesByIds ids
       | SpaceManager.GetMultipleSpacesByCreatorIds ids =>
           Resolved (mkEnvelope (Some (map (fun id => Some (raw_space id)) ids)) None
                       (Some (mkMeta (Z.of_nat (length ids)) None)))
       | _ => Resolved no_results
       end)
    resolve_numeric.

Definition space1 : Space := mkSpace "1" (raw_space "1") None.

Definition fresh : SpaceManager.state := SpaceManager.mkState [] [].

Definition warm : SpaceManager.state :=
  SpaceManager.mkState [("1", space1)] [].

Definition alice : User := mkUser "123" "alice".

Definition carol : User := mkUser "456" "carol".

(** A REST collaborator that echoes nothing of interest, a builder that
    returns the payload as it is. *)
Definition users : UserManager.Client :=
  UserManager.mkClient numeric_id
    (fun _ _ => Resolved VNull)
    (fun data c => (data, c))
    VArr.

(** The same manager with a REST collaborator that is down. *)
Definition users_offline : UserManager.Client :=
  UserManager.mkClient numeric_id
    (fun _ _ => Rejected "503")
    (fun data c => (VUndefined, c))
    (fun _ => VNull).

Definition acquainted : UserManager.state :=
  UserManager.mkState [("123", alice); ("456", carol)] [].


End Session.

(** ** What a method does to a manager

    The cache writes and the transport calls of the methods, in closed
    form, and the invariants of a cache. *)

Module Effect.

(** [_add] writes to the cache unless the flag is [false]. *)
Definition caches (cacheAfterFetching : value) : bool :=
  match cacheAfterFetching with
  | VBool false => false
  | _ => true
  end.

(** The entity that [_add] constructs from a raw space. *)
Definition entity (includes : option APIIncludes) (rawSpace : APISpace) : Space :=
  mkSpace (api_space_id rawSpace) rawSpace includes.

(** The raw spaces of an envelope, upserted in response order. *)
Definition upsert_all (includes : option APIIncludes) (rawSpaces : list APISpace)
    (c : Collection.t Space) : Collection.t Space :=
  fold_left
    (fun c rawSpace =>
       Collection.set (api_space_id rawSpace) (entity includes rawSpace) c)
    rawSpaces c.

(** The raw spaces of a response that come before its first [null]
    element: those the loop reaches. *)
Fixpoint intact (rawSpaces : list (option APISpace)) : list APISpace :=
  match rawSpaces with
  | Some rawSpace :: rest => rawSpace :: intact rest
  | _ => []
  end.

(** No element of the response is [null]. *)
Fixpoint complete (rawSpaces : list (option APISpace)) : bool :=
  match rawSpaces with
  | [] => true
  | Some _ :: rest => complete rest
  | None :: _ => false
  end.

(** The error of the loop on a [null] element of the response. *)
Definition null_element : error :=
  TypeError "Cannot read properties of null (reading 'id')".

(** The manager after one more transport call. *)
Definition logged (r : SpaceManager.Request) (s : SpaceManager.state)
    : SpaceManager.state :=
  SpaceManager.mkState (SpaceManager.cache s) (SpaceManager.calls s ++ [r])%list.

(** No key occurs twice. *)
Definition unique_keys {V} (c : Collection.t V) : Prop :=
  NoDup (map fst c).

(** Every space is stored under its own ID. *)
Definition keyed_by_id (c : Collection.t Space) : Prop :=
  forall k sp, In (k, sp) c -> space_id sp = k.

(** Every user is stored under their own ID. *)
Definition keyed_by_user_id (c : Collection.t User) : Prop :=
  forall k u, In (k, u) c -> user_id u = k.



(** A well-formed cache. *)
Definition well_formed (c : Collection.t Space) : Prop :=
  unique_keys c /\ keyed_by_id c.

(** What a multi-fetch that succeeds returns and leaves behind, given
    the raw spaces and the [includes] of the envelope: the result holds
    exactly the IDs of the response, each once, each with the space
    built from a raw space of that ID; with caching on, the cache holds
    every returned space; cache entries under other IDs are as before;
    with caching off the cache is as before. *)
Definition merged (includes : option APIIncludes) (rawSpaces : list APISpace)
    (cacheAfterFetching : value) (result : Collection.t Space)
    (s s' : SpaceManager.state) : Prop :=
  (forall id, Collection.get id result <> None <-> In id (map api_space_id rawSpaces))
  /\ (forall id sp, Collection.get id result = Some sp ->
        space_id sp = id
        /\ exists raw, In raw rawSpaces /\ api_space_id raw = id
                       /\ sp = entity includes raw)
  /\ unique_keys result
  /\ (cacheAfterFetching <> VBool false ->
      forall id sp, Collection.get id result = Some sp ->
                    Collection.get id (SpaceManager.cache s') = Some sp)
  /\ (forall id, ~ In id (map api_space_id rawSpaces) ->
        Collection.get id (SpaceManager.cache s') = Collection.get id (SpaceManager.cache s))
  /\ (cacheAfterFetching = VBool false -> SpaceManager.cache s' = SpaceManager.cache s).

(** The ways a method of the space manager can end: without touching
    the manager (a local error or a cache hit); with a failed transport
    call or an envelope that lacks a field; or after a call whose raw
    spaces were built and, unless caching is off, upserted, either all
    of them (the method returns) or those before a [null] element (the
    method throws [null_element]). *)
Definition transition {A} (client : SpaceManager.Client) (o : outcome A)
    (s s' : SpaceManager.state) : Prop :=
  (s' = s /\ forall detail, o <> Throw (RemoteApiError detail))
  \/ (exists r e,
        o = Throw e /\ s' = logged r s
        /\ ((exists msg, e = TypeError msg)
            \/ (exists detail, e = RemoteApiError detail
                  /\ (SpaceManager.api_one client (SpaceManager.calls s) r = Rejected detail
                      \/ SpaceManager.api_many client (SpaceManager.calls s) r
                         = Rejected detail))))
  \/ (exists r includes rawSpaces write,
        ((exists a, o = Return a) \/ o = Throw null_element)
        /\ s' = SpaceManager.mkState
                  (if write : bool
                   then upsert_all includes rawSpaces (SpaceManager.cache s)
                   else SpaceManager.cache s)
                  (SpaceManager.calls s ++ [r])%list).

End Effect.

(** ** More sessions *)

Module Scenario.

(** A transport that is down. *)
Definition unreachable : SpaceManager.Client :=
  SpaceManager.mkClient Session.numeric_id
    (fun _ _ => Rejected "503")
    (fun _ _ => Rejected "503")
    Session.resolve_numeric.

(** A transport that answers with empty envelopes: [{}]. *)
Definition bare : SpaceManager.Client :=
  SpaceManager.mkClient Session.numeric_id
    (fun _ _ => Resolved (mkEnvelope None None None))
    (fun _ _ => Resolved (mkEnvelope None None None))
    Session.resolve_numeric.

Definition space2 : Space := mkSpace "2" (Session.raw_space "2") None.

(** The envelope of the obliging transport for the spaces 1 and 2. *)
Definition both : Envelope (list (option APISpace)) :=
  mkEnvelope (Some [Some (Session.raw_space "1"); Some (Session.raw_space "2")]) None
    (Some (mkMeta 2 None)).

(** An envelope whose second element is [null]. *)
Definition torn : Envelope (list (option APISpace)) :=
  mkEnvelope (Some [Some (Session.raw_space "2"); None; Some (Session.raw_space "3")])
    None (Some (mkMeta 3 None)).

(** A transport that answers every lookup of several spaces with the
    torn envelope. *)
Definition careless : SpaceManager.Client :=
  SpaceManager.mkClient Session.numeric_id
    (fun _ _ => Rejected "404")
    (fun _ _ => Resolved torn)
    Session.resolve_numeric.






End Scenario.

(** * Properties *)

(** ** Shared lemmas *)

(** One pure step of a method: the first [lift]ed read of the body is
    replaced by its value, known from [H]. *)
Ltac lift_step H := unfold bind at 1, lift at 1; rewrite H.

(** An options value in which [k in options] holds is an object
    literal, or an entity carrying [k]. *)
Lemma has_property_typeof {k : string} {options : value} {b : bool} :
  has_property k options = Return b -> typeof options = TObject.
Proof. destruct options; simpl; intros H; try reflexivity; discriminate. Qed.

Lemma has_property_not_null {k : string} {options : value} {b : bool} (k' : string) :
  has_property k options = Return b -> exists v, prop options k' = Return v.
Proof.
  destruct options; simpl; intros H; try discriminate; eexists; reflexivity.
Qed.

Section SpaceManagerProperties.

Import SpaceManager.

Variable client : Client.

(** The single-fetch path of [fetch], once [space] has resolved. *)
Lemma fetch_space_path {options space : value} {spaceId : Snowflake} (s : state) :
  has_property "space" options = Return true ->
  prop options "space" = Return space ->
  truthy_id (resolveId client space) = Some spaceId ->
  fetch client options s =
  (sp <- fetchSingleSpace client spaceId options ;; ret (One sp)) s.
Proof.
  intros Hin Hprop Hid.
  unfold fetch.
  rewrite (has_property_typeof Hin). simpl.
  lift_step Hin.
  lift_step Hprop.
  rewrite Hid. reflexivity.
Qed.

(** X19: a single-space fetch consults the cache first unless
    [skipCacheCheck] is set.  With [skipCacheCheck] falsy (the default)
    and the resolved ID in the cache, the cached space is returned, no
    transport call is issued and the manager is left as it was; with
    [skipCacheCheck] truthy exactly one transport call, the single-space
    lookup of the resolved ID, is issued whatever the cache holds. *)
Theorem fetch_single_space_cache_policy
    (options space skipCacheCheck : value) (spaceId : Snowflake) (s : state) :
  has_property "space" options = Return true ->
  prop options "space" = Return space ->
  truthy_id (resolveId client space) = Some spaceId ->
  prop options "skipCacheCheck" = Return skipCacheCheck ->
  (truthy skipCacheCheck = false ->
   forall cached, Collection.get spaceId (cache s) = Some cached ->
     fetch client options s = (Return (One cached), s))
  /\
  (truthy skipCacheCheck = true ->
   calls (snd (fetch client options s)) = (calls s ++ [GetSingleSpaceById spaceId])%list).
Proof.
  intros Hin Hprop Hid Hskip.
  rewrite (fetch_space_path s Hin Hprop Hid).
  split.
  - intros Hfalsy cached Hget.
    unfold fetchSingleSpace, bind, lift, gets, ret.
    rewrite Hskip, Hfalsy. simpl. rewrite Hget. reflexivity.
  - intros Htruthy.
    unfold fetchSingleSpace, bind, lift, gets, ret, request.
    rewrite Hskip, Htruthy. simpl.
    destruct (api_one client (calls s) (GetSingleSpaceById spaceId)) as [data|detail];
      simpl; [|reflexivity].
    destruct (env_data data) as [raw|]; simpl; [|reflexivity].
    destruct (has_property_not_null "cacheAfterFetching" Hin) as [caf Hcaf].
    rewrite Hcaf.
    unfold _add, bind, modify, ret.
    destruct caf as [| |[|]| | | | | |]; reflexivity.
Qed.

(** The two option names that [#fetchSingleSpace] reads decide its
    behaviour. *)
Lemma fetchSingleSpace_options (spaceId : Snowflake) (options options' : value) (s : state) :
  prop options' "skipCacheCheck" = prop options "skipCacheCheck" ->
  prop options' "cacheAfterFetching" = prop options "cacheAfterFetching" ->
  fetchSingleSpace client spaceId options' s = fetchSingleSpace client spaceId options s.
Proof.
  intros Hskip Hcaf. unfold fetchSingleSpace.
  unfold bind at 1 3, lift at 1 3. rewrite Hskip.
  destruct (prop options "skipCacheCheck") as [skip|e]; [|reflexivity].
  unfold bind. destruct (if negb (truthy skip) then _ else _) as [[[sp|]|e] s1]; try reflexivity.
  destruct (request _ _ s1) as [[data|e] s2]; [|reflexivity].
  destruct (env_data data) as [raw|]; [|reflexivity].
  unfold lift. rewrite Hcaf. reflexivity.
Qed.

(** Every error of the single-fetch path comes from the transport or
    from reading the envelope: none is a [CustomTypeError]. *)
Lemma fetchSingleSpace_errors (spaceId : Snowflake) (options : value) (s : state) (e : error) :
  (exists v, prop options "skipCacheCheck" = Return v) ->
  (exists v, prop options "cacheAfterFetching" = Return v) ->
  fst (fetchSingleSpace client spaceId options s) = Throw e ->
  is_InvalidArgument e = false /\ is_ResolutionError e = false.
Proof.
  intros [skip Hskip] [caf Hcaf]. unfold fetchSingleSpace.
  lift_step Hskip.
  unfold bind at 1.
  destruct (if negb (truthy skip) then _ else _) as [[[sp|]|e0] s1] eqn:Hc.
  - discriminate.
  - unfold bind at 1, request.
    destruct (api_one client (calls s1) _) as [data|detail]; simpl.
    + destruct (env_data data) as [raw|]; simpl.
      * unfold bind, lift. rewrite Hcaf. unfold _add.
        destruct caf as [| |[|]| | | | | |]; simpl; discriminate.
      * intros H; inversion H; split; reflexivity.
    + intros H; inversion H; split; reflexivity.
  - destruct (negb (truthy skip)); discriminate.
Qed.

(** C2, as amended: for the two multi-fetch methods that test
    [meta.result_count], [fetchByCreatorIds] and [search], an envelope
    with [meta.result_count === 0] yields the empty collection and no
    error; the cache is untouched and the outcome is the same whatever
    the envelope's [data] and [includes] fields hold (they may be
    absent): [data] is never read. *)
Theorem zero_result_is_empty_collection (options : value) (s : state)
    (data : Envelope (list (option APISpace))) (meta : Meta) :
  env_meta data = Some meta ->
  result_count meta = 0%Z ->
  (forall items userIds,
     typeof options = TObject ->
     prop options "users" = Return (VArr items) ->
     resolve_each (users_resolveId client)
       (CustomTypeError USER_RESOLVE_ID ["fetch spaces of"]) items = Return userIds ->
     api_many client (calls s) (GetMultipleSpacesByCreatorIds userIds) = Resolved data ->
     fetchByCreatorIds client options s =
     (Return Collection.empty,
      {| cache := cache s;
         calls := (calls s ++ [GetMultipleSpacesByCreatorIds userIds])%list |}))
  /\
  (forall query maxResults state,
     prop options "query" = Return query ->
     prop options "maxResults" = Return maxResults ->
     prop options "state" = Return state ->
     api_many client (calls s) (GetMultipleSpacesBySearch query maxResults state)
       = Resolved data ->
     search client options s =
     (Return Collection.empty,
      {| cache := cache s;
         calls := (calls s ++ [GetMultipleSpacesBySearch query maxResults state])%list |})).
Proof.
  intros Hmeta Hzero. split.
  - intros items userIds Hobj Husers Hids Hreply.
    unfold fetchByCreatorIds. rewrite Hobj. simpl.
    lift_step Husers.
    lift_step Hids.
    unfold bind, request. rewrite Hreply.
    unfold unless_empty. rewrite Hmeta, Hzero. reflexivity.
  - intros query maxResults state Hq Hm Hs Hreply.
    unfold search.
    lift_step Hq.
    lift_step Hm.
    lift_step Hs.
    unfold bind, request. rewrite Hreply.
    unfold unless_empty. rewrite Hmeta, Hzero. reflexivity.
Qed.

(** C3, as amended: [fetch] rejects with an invalid-argument error, and
    leaves the manager as it was (no transport call, no cache write),
    options whose [typeof] is not ['object'], an object without a
    ['space'] field whose ['spaces'] field is present but not an array,
    and an object with neither field; [fetchByCreatorIds] does the same
    for options whose [typeof] is not ['object'] and for an object whose
    ['users'] field is missing or not an array. *)
Theorem malformed_options_rejected (options : value) (s : state) :
  (typeof options <> TObject ->
   exists e, fetch client options s = (Throw e, s) /\ is_InvalidArgument e = true)
  /\
  (has_property "space" options = Return false ->
   has_property "spaces" options = Return true ->
   forall spaces, prop options "spaces" = Return spaces -> isArray spaces = false ->
   exists e, fetch client options s = (Throw e, s) /\ is_InvalidArgument e = true)
  /\
  (has_property "space" options = Return false ->
   has_property "spaces" options = Return false ->
   exists e, fetch client options s = (Throw e, s) /\ is_InvalidArgument e = true)
  /\
  (typeof options <> TObject ->
   exists e, fetchByCreatorIds client options s = (Throw e, s)
             /\ is_InvalidArgument e = true)
  /\
  (typeof options = TObject ->
   forall users, prop options "users" = Return users -> isArray users = false ->
   exists e, fetchByCreatorIds client options s = (Throw e, s)
             /\ is_InvalidArgument e = true).
Proof.
  repeat split.
  - intros Hty. exists (CustomTypeError INVALID_TYPE ["options"; "object"]).
    split; [|reflexivity].
    unfold fetch. destruct options; simpl in *; try reflexivity; congruence.
  - intros Hspace Hspaces spaces Hprop Harr.
    exists (CustomTypeError INVALID_TYPE ["spaces"; "array"]).
    split; [|reflexivity].
    unfold fetch. rewrite (has_property_typeof Hspace). simpl.
    lift_step Hspace.
    lift_step Hspaces.
    lift_step Hprop.
    destruct spaces; simpl in *; try reflexivity; discriminate.
  - intros Hspace Hspaces.
    exists (CustomTypeError INVALID_FETCH_OPTIONS []).
    split; [|reflexivity].
    unfold fetch. rewrite (has_property_typeof Hspace). simpl.
    lift_step Hspace.
    lift_step Hspaces. reflexivity.
  - intros Hty. exists (CustomTypeError INVALID_TYPE ["options"; "object"]).
    split; [|reflexivity].
    unfold fetchByCreatorIds. destruct options; simpl in *; try reflexivity; congruence.
  - intros Hty users Hprop Harr.
    exists (CustomTypeError INVALID_TYPE ["users"; "array"]).
    split; [|reflexivity].
    unfold fetchByCreatorIds. rewrite Hty. simpl.
    lift_step Hprop.
    destruct users; simpl in *; try reflexivity; discriminate.
Qed.

(** The [map] over the resolvables throws as soon as one of them has no
    ID. *)
Lemma resolve_each_unresolvable (resolve : value -> option Snowflake) (e : error)
    (items : list value) :
  (exists x, In x items /\ truthy_id (resolve x) = None) ->
  resolve_each resolve e items = Throw e.
Proof.
  induction items as [|y rest IH]; intros [x [Hin Hx]].
  - destruct Hin.
  - simpl. destruct (truthy_id (resolve y)) as [id|] eqn:Hy; [|reflexivity].
    destruct Hin as [Heq|Hin].
    + subst y. congruence.
    + rewrite IH; [reflexivity|]. exists x. split; assumption.
Qed.

Lemma prop_array_has_property (options : value) (k : string) (items : list value) :
  typeof options = TObject ->
  k <> "length" -> k <> "id" -> k <> "username" ->
  prop options k = Return (VArr items) -> has_property k options = Return true.
Proof.
  intros Hobj Hlen Hid Hname.
  apply String.eqb_neq in Hlen, Hid, Hname.
  destruct options; simpl in *; try discriminate.
  - rewrite Hlen. discriminate.
  - destruct (lookup k fields); [reflexivity|discriminate].
  - rewrite Hid. discriminate.
  - rewrite Hid, Hname. discriminate.
Qed.

(** C8, as amended: when the options carry a ['space'] field that
    [resolveId] cannot turn into an ID, or carry no ['space'] field and
    an array ['spaces'] one element of which [resolveId] cannot turn
    into an ID, [fetch] rejects with a resolution error and leaves the
    manager as it was: no transport call is issued. *)
Theorem unresolvable_space_rejected (options : value) (s : state) :
  (has_property "space" options = Return true ->
   forall space, prop options "space" = Return space ->
   truthy_id (resolveId client space) = None ->
   exists e, fetch client options s = (Throw e, s) /\ is_ResolutionError e = true)
  /\
  (has_property "space" options = Return false ->
   forall items, prop options "spaces" = Return (VArr items) ->
   (exists x, In x items /\ truthy_id (resolveId client x) = None) ->
   exists e, fetch client options s = (Throw e, s) /\ is_ResolutionError e = true).
Proof.
  split.
  - intros Hin space Hprop Hnone.
    exists (CustomTypeError SPACE_RESOLVE_ID []). split; [|reflexivity].
    unfold fetch. rewrite (has_property_typeof Hin). simpl.
    lift_step Hin.
    lift_step Hprop.
    rewrite Hnone. reflexivity.
  - intros Hspace items Hprop Hbad.
    exists (CustomTypeError SPACE_RESOLVE_ID []). split; [|reflexivity].
    assert (Hobj := has_property_typeof Hspace).
    assert (Hspaces : has_property "spaces" options = Return true).
    { apply prop_array_has_property with (items := items);
        [exact Hobj | discriminate | discriminate | discriminate | exact Hprop]. }
    unfold fetch. rewrite Hobj. simpl.
    lift_step Hspace.
    lift_step Hspaces.
    lift_step Hprop.
    unfold bind at 1, lift at 1.
    rewrite (resolve_each_unresolvable _ _ _ Hbad). reflexivity.
Qed.

(** The single fetch issues no call or the lookup of its one space. *)
Lemma fetchSingleSpace_calls (spaceId : Snowflake) (options : value) (s : state) :
  (exists v, prop options "skipCacheCheck" = Return v) ->
  (exists v, prop options "cacheAfterFetching" = Return v) ->
  calls (snd (fetchSingleSpace client spaceId options s)) = calls s
  \/ calls (snd (fetchSingleSpace client spaceId options s))
     = (calls s ++ [GetSingleSpaceById spaceId])%list.
Proof.
  intros [skip Hskip] [caf Hcaf].
  remember (fetchSingleSpace client spaceId options s) as run eqn:Hrun.
  unfold fetchSingleSpace in Hrun.
  unfold bind at 1, lift at 1 in Hrun. rewrite Hskip in Hrun.
  unfold bind at 1 in Hrun.
  assert (Hcall :
    forall s0, s0 = s ->
      calls (snd ((data <- request (GetSingleSpaceById spaceId) (api_one client) ;;
                   match env_data data with
                   | None => throw (TypeError
                                      "Cannot read properties of undefined (reading 'id')")
                   | Some raw =>
                       cacheAfterFetching <- lift (prop options "cacheAfterFetching") ;;
                       _add (api_space_id raw) raw (env_includes data) cacheAfterFetching
                   end) s0))
      = (calls s ++ [GetSingleSpaceById spaceId])%list).
  { intros s0 ->. unfold bind at 1, request.
    destruct (api_one client (calls s) (GetSingleSpaceById spaceId)) as [data|detail];
      [|reflexivity].
    destruct (env_data data) as [raw|]; [|reflexivity].
    unfold bind, lift. rewrite Hcaf. unfold _add, bind, modify, ret.
    destruct caf as [| |[|]| | | | | |]; reflexivity. }
  destruct (negb (truthy skip)); unfold gets, ret in Hrun.
  - destruct (Collection.get spaceId (cache s)) as [sp|].
    + left. subst run. reflexivity.
    + right. subst run. apply Hcall. reflexivity.
  - right. subst run. apply Hcall. reflexivity.
Qed.

(** An options object with a ['space'] field is dispatched to the
    single fetch, or rejected when the space has no ID. *)
Lemma fetch_space_dispatch (fields : list (string * value)) (space : value) (s : state) :
  lookup "space" fields = Some space ->
  fetch client (VObj fields) s =
  match truthy_id (resolveId client space) with
  | Some spaceId =>
      (sp <- fetchSingleSpace client spaceId (VObj fields) ;; ret (One sp)) s
  | None => (Throw (CustomTypeError SPACE_RESOLVE_ID []), s)
  end.
Proof.
  intros Hf. unfold fetch.
  change (typeof (VObj fields)) with TObject. cbv beta iota delta [jstype_eqb negb].
  unfold bind at 1, lift at 1. unfold has_property at 1, prop at 1. rewrite Hf.
  unfold bind at 1, lift at 1.
  destruct (truthy_id (resolveId client space)); reflexivity.
Qed.

(** C10: when the options object has a ['space'] field, [fetch] takes the
    single-fetch path: with or without a ['spaces'] field, it is the run
    of [#fetchSingleSpace] on the ID of [options.space] (or the
    resolution error when [options.space] has no ID), so the only
    transport call it can issue is the lookup of that one space.  Its
    outcome and final state do not depend on the ['spaces'] field at all
    (present or not, array or not, resolvable elements or not); it never
    returns a collection and never rejects with an invalid-argument
    error. *)
Theorem space_takes_precedence (fields fields' : list (string * value))
    (space : value) (s : state) :
  lookup "space" fields = Some space ->
  (forall k, k <> "spaces" -> lookup k fields' = lookup k fields) ->
  fetch client (VObj fields') s = fetch client (VObj fields) s
  /\ fetch client (VObj fields') s =
     match truthy_id (resolveId client space) with
     | Some spaceId =>
         (sp <- fetchSingleSpace client spaceId (VObj fields') ;; ret (One sp)) s
     | None => (Throw (CustomTypeError SPACE_RESOLVE_ID []), s)
     end
  /\ (calls (snd (fetch client (VObj fields') s)) = calls s
      \/ exists spaceId,
           truthy_id (resolveId client space) = Some spaceId
           /\ calls (snd (fetch client (VObj fields') s))
              = (calls s ++ [GetSingleSpaceById spaceId])%list)
  /\ (forall c, fst (fetch client (VObj fields) s) <> Return (Many c))
  /\ (forall e, fst (fetch client (VObj fields) s) = Throw e ->
                is_InvalidArgument e = false).
Proof.
  intros Hspace Hagree.
  assert (Hspace' : lookup "space" fields' = Some space).
  { rewrite Hagree; [assumption|discriminate]. }
  assert (Hskip : prop (VObj fields') "skipCacheCheck" = prop (VObj fields) "skipCacheCheck").
  { simpl. rewrite Hagree; [reflexivity|discriminate]. }
  assert (Hcaf : prop (VObj fields') "cacheAfterFetching"
                 = prop (VObj fields) "cacheAfterFetching").
  { simpl. rewrite Hagree; [reflexivity|discriminate]. }
  split; [|split; [|split]].
  - rewrite (fetch_space_dispatch fields space s Hspace),
            (fetch_space_dispatch fields' space s Hspace').
    destruct (truthy_id (resolveId client space)) as [spaceId|]; [|reflexivity].
    unfold bind.
    rewrite (fetchSingleSpace_options spaceId (VObj fields) (VObj fields') s Hskip Hcaf).
    reflexivity.
  - apply fetch_space_dispatch. exact Hspace'.
  - rewrite (fetch_space_dispatch fields' space s Hspace').
    destruct (truthy_id (resolveId client space)) as [spaceId|]; [|left; reflexivity].
    destruct (fetchSingleSpace_calls spaceId (VObj fields') s) as [Hnone|Hone];
      [eexists; reflexivity | eexists; reflexivity | |].
    + left. unfold bind, ret.
      destruct (fetchSingleSpace client spaceId (VObj fields') s) as [[sp|e] s1];
        exact Hnone.
    + right. exists spaceId. split; [reflexivity|]. unfold bind, ret.
      destruct (fetchSingleSpace client spaceId (VObj fields') s) as [[sp|e] s1];
        exact Hone.
  - rewrite (fetch_space_dispatch fields space s Hspace).
    destruct (truthy_id (resolveId client space)) as [spaceId|].
    + split.
      * intros c. unfold bind, ret.
        destruct (fetchSingleSpace client spaceId (VObj fields) s) as [[sp|e] s1];
          simpl; discriminate.
      * intros e. unfold bind, ret.
        pose proof (fetchSingleSpace_errors spaceId (VObj fields) s) as Herr.
        destruct (fetchSingleSpace client spaceId (VObj fields) s) as [[sp|e0] s1];
          simpl in *; [discriminate|].
        intros H; inversion H; subst.
        apply (Herr e); [eexists; reflexivity | eexists; reflexivity | reflexivity].
    + split; simpl; intros; try discriminate.
      match goal with H : Throw _ = Throw _ |- _ => inversion H end. reflexivity.
Qed.

End SpaceManagerProperties.

Section UserManagerProperties.

Import UserManager.

Variable client : Client.

(** The entries of a collection that [find] can return, and when it
    returns none. *)
Lemma find_some {V} {p : V -> bool} {c : Collection.t V} {v : V} :
  Collection.find p c = Some v -> p v = true /\ exists k, In (k, v) c.
Proof.
  induction c as [|[k w] rest IH]; simpl; [discriminate|].
  destruct (p w) eqn:Hp.
  - intros H; inversion H; subst. split; [assumption|]. exists k. left. reflexivity.
  - intros H. destruct (IH H) as [Hv [k' Hin]].
    split; [assumption|]. exists k'. right. assumption.
Qed.

Lemma find_none {V} {p : V -> bool} {c : Collection.t V} :
  Collection.find p c = None -> forall k v, In (k, v) c -> p v = false.
Proof.
  induction c as [|[k w] rest IH]; simpl; intros H k' v Hin; [destruct Hin|].
  destruct (p w) eqn:Hp; [discriminate|].
  destruct Hin as [Heq|Hin].
  - inversion Heq; subst. assumption.
  - apply (IH H k' v Hin).
Qed.

(** X20: for a string that the base manager does not accept
    as an ID, [resolveID] returns the ID of a cached user whose username
    is that string (the first one in the cache's order), and [resolve]
    returns that user; when no cached user has that username both return
    [undefined] (not [null]).  Both are total: nothing is thrown. *)
Theorem resolve_by_username (this : state) (name : string) :
  base_resolveID client (VStr name) = VNull ->
  (exists user k,
      In (k, user) (cache this) /\ user_username user = name
      /\ Collection.find (fun u => user_username u =? name) (cache this) = Some user
      /\ resolveID client this (VStr name) = VStr (user_id user)
      /\ resolve client this (VStr name) = VUser user)
  \/
  ((forall k user, In (k, user) (cache this) -> user_username user <> name)
   /\ resolveID client this (VStr name) = VUndefined
   /\ resolve client this (VStr name) = VUndefined).
Proof.
  intros Hbase.
  unfold resolveID, resolve, base_resolve. rewrite Hbase. simpl.
  unfold find_by_username, strict_eq_str.
  destruct (Collection.find (fun user => user_username user =? name) (cache this))
    as [user|] eqn:Hfind.
  - left. destruct (find_some Hfind) as [Hname [k Hin]].
    apply String.eqb_eq in Hname.
    exists user, k. repeat split; assumption.
  - right. repeat split.
    intros k user Hin. apply String.eqb_neq.
    apply (find_none Hfind k user Hin).
Qed.

(** The loop over the resolvables computes the partition. *)
Lemma fold_sort_resolvable (this : state) (items ids names : list value) :
  fold_left (sort_resolvable client this) items (ids, names) =
  ((ids ++ id_bucket client this items)%list,
   (names ++ username_bucket client this items)%list).
Proof.
  revert ids names.
  induction items as [|x rest IH]; intros ids names.
  - simpl. rewrite !app_nil_r. reflexivity.
  - simpl fold_left. unfold sort_resolvable at 2.
    unfold id_bucket, username_bucket. simpl filter.
    destruct (truthy (resolveID client this x)) eqn:Hid; simpl negb; simpl andb.
    + simpl fst; simpl snd. rewrite IH. simpl map.
      rewrite <- app_assoc. reflexivity.
    + destruct (jstype_eqb (typeof x) TString) eqn:Hstr.
      * simpl fst; simpl snd. rewrite IH.
        rewrite <- app_assoc. reflexivity.
      * rewrite IH. reflexivity.
Qed.

Lemma buckets_partition (this : state) (items : list value) :
  buckets client this items =
  (id_bucket client this items, username_bucket client this items).
Proof. unfold buckets. rewrite fold_sort_resolvable. reflexivity. Qed.

(** Options whose [user] field is an array are an object literal. *)
Lemma prop_user_array {options : value} {items : list value} :
  prop options "user" = Return (VArr items) ->
  exists fields, options = VObj fields /\ lookup "user" fields = Some (VArr items).
Proof.
  destruct options; simpl; intros H; try discriminate.
  exists fields. split; [reflexivity|].
  destruct (lookup "user" fields); [congruence|discriminate].
Qed.

(** The array branch of [fetch]. *)
Lemma fetch_user_array {options : value} {items : list value} (s : state) :
  prop options "user" = Return (VArr items) ->
  fetch client options s = fetch_array client items s.
Proof.
  intros Hprop. destruct (prop_user_array Hprop) as [fields [-> Hlook]].
  unfold fetch. unfold bind at 1, gets at 1.
  change (resolveID client s (VObj fields)) with VNull.
  change (truthy VNull) with false. cbv iota.
  change (typeof (VObj fields)) with TObject.
  change (jstype_eqb TObject TString) with false. cbv iota.
  lift_step Hprop. reflexivity.
Qed.


Lemma id_bucket_app (this : state) (l1 l2 : list value) :
  id_bucket client this (l1 ++ l2) =
  (id_bucket client this l1 ++ id_bucket client this l2)%list.
Proof. unfold id_bucket. rewrite filter_app, map_app. reflexivity. Qed.

Lemma username_bucket_app (this : state) (l1 l2 : list value) :
  username_bucket client this (l1 ++ l2) =
  (username_bucket client this l1 ++ username_bucket client this l2)%list.
Proof. unfold username_bucket. apply filter_app. Qed.

(** No resolvable lands in both buckets. *)
Lemma buckets_length (this : state) (items : list value) :
  length (id_bucket client this items) + length (username_bucket client this items)
  <= length items.
Proof.
  unfold id_bucket, username_bucket.
  induction items as [|x rest IH]; simpl; [lia|].
  destruct (truthy (resolveID client this x)); simpl.
  - lia.
  - destruct (jstype_eqb (typeof x) TString); simpl; lia.
Qed.

(** C9: in a batch fetch, an element that has no ID and is not a string
    goes into neither array.  The two arrays, the calls and the result
    are those of the same fetch without that element, so no error is
    raised on its account, and fewer users are asked for than there
    were inputs. *)
Theorem unresolvable_element_omitted (options options' : value)
    (before after : list value) (x : value) (s : state) :
  truthy (resolveID client s x) = false ->
  typeof x <> TString ->
  prop options "user" = Return (VArr (before ++ x :: after)) ->
  prop options' "user" = Return (VArr (before ++ after)) ->
  buckets client s (before ++ x :: after) = buckets client s (before ++ after)
  /\ fetch client options s = fetch client options' s
  /\ length (fst (buckets client s (before ++ x :: after)))
     + length (snd (buckets client s (before ++ x :: after)))
     < length (before ++ x :: after).
Proof.
  intros Hid Hstr Hprop Hprop'.
  assert (Hnot : jstype_eqb (typeof x) TString = false).
  { destruct (typeof x); try reflexivity. congruence. }
  assert (Hsame : buckets client s (before ++ x :: after)
                  = buckets client s (before ++ after)).
  { rewrite !buckets_partition.
    rewrite !id_bucket_app, !username_bucket_app.
    unfold id_bucket at 2, username_bucket at 2. simpl filter.
    rewrite Hid, Hnot. reflexivity. }
  split; [exact Hsame|]. split.
  - rewrite (fetch_user_array s Hprop), (fetch_user_array s Hprop').
    unfold fetch_array. unfold bind at 1 3, gets at 1 2.
    rewrite Hsame. reflexivity.
  - rewrite Hsame, buckets_partition. cbn [fst snd].
    pose proof (buckets_length s (before ++ after)) as Hle.
    rewrite !length_app in *. simpl. lia.
Qed.

(** A resolvable handed to [fetch] directly: the ID endpoint is called
    with the resolved ID. *)
Lemma fetch_resolvable_calls (options : value) (s : state) :
  truthy (resolveID client s options) = true ->
  calls (snd (fetch client options s))
  = (calls s ++ [FetchUserById (resolveID client s options)])%list.
Proof.
  intros Hid. unfold fetch, bind, gets, _fetchSingle, request, build.
  rewrite Hid.
  destruct (rest client (calls s) _); cbn [cache calls snd]; [|reflexivity].
  destruct (userBuilder client _ (cache s)). reflexivity.
Qed.

(** A resolvable handed to [fetch] in the [user] option: the ID endpoint
    is called with the resolvable as it was given, not with the resolved
    ID. *)
Lemma fetch_option_calls (fields : list (string * value)) (user : value) (s : state) :
  lookup "user" fields = Some user ->
  truthy user = true ->
  isArray user = false ->
  truthy (resolveID client s user) = true ->
  calls (snd (fetch client (VObj fields) s)) = (calls s ++ [FetchUserById user])%list.
Proof.
  intros Hlook Htruthy Harr Hid.
  unfold fetch. unfold bind at 1, gets at 1.
  change (resolveID client s (VObj fields)) with VNull.
  change (truthy VNull) with false. cbv iota.
  change (typeof (VObj fields)) with TObject.
  change (jstype_eqb TObject TString) with false. cbv iota.
  unfold bind at 1, lift at 1. unfold prop. rewrite Hlook, Htruthy.
  assert (Hpath :
    (userID <- gets (fun s0 => resolveID client s0 user) ;;
     (if truthy userID
      then userData <- _fetchSingle client user ID ;; build client userData
      else if jstype_eqb (typeof user) TString
           then userData <- _fetchSingle client user USERNAME ;; build client userData
           else ret VUndefined)) s
    = (userData <- _fetchSingle client user ID ;; build client userData) s).
  { unfold bind at 1, gets at 1. rewrite Hid. reflexivity. }
  destruct user; try discriminate; rewrite Hpath;
    unfold bind, _fetchSingle, request, build;
    (destruct (rest client (calls s) _); cbn [cache calls snd]; [|reflexivity]);
    destruct (userBuilder client _ (cache s)); reflexivity.
Qed.

End UserManagerProperties.

(** ** The managers at work *)

Section Runs.

Import Session.

(** X19, at work: [fetch({ space: '1' })] on a cache that holds space 1
    returns the cached space without a transport call, and
    [fetch({ space: '1', skipCacheCheck: true })] on the same cache
    issues one lookup. *)
Lemma fetch_single_space_cache_policy_run :
  SpaceManager.fetch obliging (VObj [("space", VStr "1")]) warm
    = (Return (SpaceManager.One space1), warm)
  /\ SpaceManager.calls
       (snd (SpaceManager.fetch obliging
               (VObj [("space", VStr "1"); ("skipCacheCheck", VBool true)]) warm))
     = [SpaceManager.GetSingleSpaceById "1"].
Proof.
  split.
  - apply (proj1 (fetch_single_space_cache_policy obliging
                    (VObj [("space", VStr "1")]) (VStr "1") VUndefined "1" warm
                    eq_refl eq_refl eq_refl eq_refl));
      reflexivity.
  - apply (proj2 (fetch_single_space_cache_policy obliging
                    (VObj [("space", VStr "1"); ("skipCacheCheck", VBool true)])
                    (VStr "1") (VBool true) "1" warm
                    eq_refl eq_refl eq_refl eq_refl));
      reflexivity.
Defined.

(** C2, at work: [fetchByCreatorIds] and [search] on a transport that
    answers [{ meta: { result_count: 0 } }]. *)
Lemma zero_result_is_empty_collection_run :
  SpaceManager.fetchByCreatorIds barren
    (VObj [("users", VArr [VStr "7"]); ("query", VStr "rocq")]) fresh
  = (Return Collection.empty,
     SpaceManager.mkState [] [SpaceManager.GetMultipleSpacesByCreatorIds ["7"]])
  /\ SpaceManager.search barren
       (VObj [("users", VArr [VStr "7"]); ("query", VStr "rocq")]) fresh
     = (Return Collection.empty,
        SpaceManager.mkState []
          [SpaceManager.GetMultipleSpacesBySearch (VStr "rocq") VUndefined VUndefined]).
Proof.
  destruct (zero_result_is_empty_collection barren
              (VObj [("users", VArr [VStr "7"]); ("query", VStr "rocq")]) fresh
              no_results (mkMeta 0 None) eq_refl eq_refl) as [Hcreators Hsearch].
  split.
  - apply (Hcreators [VStr "7"] ["7"]); reflexivity.
  - apply (Hsearch (VStr "rocq") VUndefined VUndefined); reflexivity.
Defined.

(** C2 fails for a single fetch: on the envelope
    [{ meta: { result_count: 0 } }] the single-space fetch does not
    return [null]; reading [data.data.id] throws after the transport
    call. *)
Lemma zero_result_single_fetch_throws :
  SpaceManager.api_one barren [] (SpaceManager.GetSingleSpaceById "1")
    = Resolved (mkEnvelope None None (Some (mkMeta 0 None)))
  /\ SpaceManager.fetch barren (VObj [("space", VStr "1")]) fresh
     = (Throw (TypeError "Cannot read properties of undefined (reading 'id')"),
        SpaceManager.mkState [] [SpaceManager.GetSingleSpaceById "1"]).
Proof. split; reflexivity. Qed.

(** [#fetchMultipleSpaces] has no [result_count] guard either: on the
    same envelope the loop over the missing [data] throws. *)
Example zero_result_fetch_by_ids_throws :
  SpaceManager.fetch barren (VObj [("spaces", VArr [VStr "1"; VStr "2"])]) fresh
  = (Throw (TypeError "rawSpaces is not iterable"),
     SpaceManager.mkState [] [SpaceManager.GetMultipleSpacesByIds ["1"; "2"]]).
Proof. reflexivity. Qed.

(** C3, at work: a number, [{ spaces: 5 }], [{}] for [fetch]; a number
    and [{ users: '7' }] for [fetchByCreatorIds]. *)
Lemma malformed_options_rejected_run :
  (exists e, SpaceManager.fetch obliging (VNum 5) fresh = (Throw e, fresh)
             /\ is_InvalidArgument e = true)
  /\ (exists e, SpaceManager.fetch obliging (VObj [("spaces", VNum 5)]) fresh
                = (Throw e, fresh) /\ is_InvalidArgument e = true)
  /\ (exists e, SpaceManager.fetch obliging (VObj []) fresh = (Throw e, fresh)
                /\ is_InvalidArgument e = true)
  /\ (exists e, SpaceManager.fetchByCreatorIds obliging (VNum 5) fresh = (Throw e, fresh)
                /\ is_InvalidArgument e = true)
  /\ (exists e, SpaceManager.fetchByCreatorIds obliging (VObj [("users", VStr "7")]) fresh
                = (Throw e, fresh) /\ is_InvalidArgument e = true).
Proof.
  repeat split.
  - apply (proj1 (malformed_options_rejected obliging (VNum 5) fresh)).
    simpl. discriminate.
  - apply (proj1 (proj2 (malformed_options_rejected obliging
                           (VObj [("spaces", VNum 5)]) fresh))
             eq_refl eq_refl (VNum 5) eq_refl eq_refl).
  - apply (proj1 (proj2 (proj2 (malformed_options_rejected obliging (VObj []) fresh)))
             eq_refl eq_refl).
  - apply (proj1 (proj2 (proj2 (proj2
             (malformed_options_rejected obliging (VNum 5) fresh))))).
    simpl. discriminate.
  - apply (proj2 (proj2 (proj2 (proj2
             (malformed_options_rejected obliging (VObj [("users", VStr "7")]) fresh))))
             eq_refl (VStr "7") eq_refl eq_refl).
Defined.

(** C3 fails when ['space'] is present too: [{ space: '1', spaces: 5 }]
    has a ['spaces'] field that is not an array, and [fetch] raises no
    error: it goes to the transport for space 1. *)
Lemma non_array_spaces_beside_space_accepted :
  has_property "spaces" (VObj [("space", VStr "1"); ("spaces", VNum 5)]) = Return true
  /\ isArray (VNum 5) = false
  /\ SpaceManager.fetch obliging
       (VObj [("space", VStr "1"); ("spaces", VNum 5)]) fresh
     = (Return (SpaceManager.One space1),
        SpaceManager.mkState [("1", space1)] [SpaceManager.GetSingleSpaceById "1"]).
Proof. repeat split; reflexivity. Qed.

(** [typeof null] is ['object']: [null] passes the first guard of
    [fetch] and of [fetchByCreatorIds], and the next line throws a plain
    [TypeError]; nothing reaches the transport. *)
Example null_options_throw_type_error :
  SpaceManager.fetch obliging VNull fresh
    = (Throw (TypeError "Cannot use 'in' operator"), fresh)
  /\ SpaceManager.fetchByCreatorIds obliging VNull fresh
     = (Throw (TypeError "Cannot read properties"), fresh)
  /\ is_InvalidArgument (TypeError "Cannot use 'in' operator") = false.
Proof. repeat split; reflexivity. Qed.

(** C8, at work: [{ space: 'not-an-id' }] and [{ spaces: ['1', 5] }]. *)
Lemma unresolvable_space_rejected_run :
  (exists e, SpaceManager.fetch obliging (VObj [("space", VStr "not-an-id")]) fresh
             = (Throw e, fresh) /\ is_ResolutionError e = true)
  /\ (exists e, SpaceManager.fetch obliging
                  (VObj [("spaces", VArr [VStr "1"; VNum 5])]) fresh
                = (Throw e, fresh) /\ is_ResolutionError e = true).
Proof.
  split.
  - apply (proj1 (unresolvable_space_rejected obliging
                    (VObj [("space", VStr "not-an-id")]) fresh)
             eq_refl (VStr "not-an-id") eq_refl eq_refl).
  - apply (proj2 (unresolvable_space_rejected obliging
                    (VObj [("spaces", VArr [VStr "1"; VNum 5])]) fresh)
             eq_refl [VStr "1"; VNum 5] eq_refl).
    exists (VNum 5). split; [right; left; reflexivity | reflexivity].
Defined.

(** C8 fails when ['space'] is present too: in
    [{ space: '1', spaces: [5] }] the list element [5] has no ID, and
    [fetch] raises no error: it goes to the transport for space 1. *)
Lemma unresolvable_element_beside_space_accepted :
  SpaceManager.truthy_id (SpaceManager.resolveId obliging (VNum 5)) = None
  /\ SpaceManager.fetch obliging
       (VObj [("space", VStr "1"); ("spaces", VArr [VNum 5])]) fresh
     = (Return (SpaceManager.One space1),
        SpaceManager.mkState [("1", space1)] [SpaceManager.GetSingleSpaceById "1"]).
Proof. split; reflexivity. Qed.

(** C10, at work: [{ space: '1' }] and [{ space: '1', spaces: 5 }]. *)
Lemma space_takes_precedence_run :
  SpaceManager.fetch obliging (VObj [("space", VStr "1"); ("spaces", VNum 5)]) fresh
  = SpaceManager.fetch obliging (VObj [("space", VStr "1")]) fresh.
Proof.
  apply (space_takes_precedence obliging
           [("space", VStr "1")] [("space", VStr "1"); ("spaces", VNum 5)]
           (VStr "1") fresh eq_refl).
  intros k Hk. cbn [lookup].
  destruct ("space" =? k); [reflexivity|].
  destruct (String.eqb_spec "spaces" k) as [Heq|Hne]; [|reflexivity].
  exfalso. apply Hk. symmetry. exact Heq.
Defined.

(** X20, at work: ['carol'] is the username of a cached user, ['bob'] is
    nobody's. *)
Lemma resolve_by_username_run :
  (UserManager.resolveID users acquainted (VStr "carol") = VStr "456"
   /\ UserManager.resolve users acquainted (VStr "carol") = VUser carol)
  /\ (UserManager.resolveID users acquainted (VStr "bob") = VUndefined
      /\ UserManager.resolve users acquainted (VStr "bob") = VUndefined).
Proof.
  split.
  - destruct (resolve_by_username users acquainted "carol" eq_refl)
      as [[user [k [_ [_ [Hfind [Hid Hres]]]]]] | [Hnone _]].
    + assert (Huser : Some user = Some carol) by (rewrite <- Hfind; reflexivity).
      injection Huser as Huser.
      rewrite Hid, Hres, Huser. split; reflexivity.
    + exfalso. apply (Hnone "456" carol); [right; left; reflexivity | reflexivity].
  - destruct (resolve_by_username users acquainted "bob" eq_refl)
      as [[user [k [_ [_ [Hfind _]]]]] | [_ Hundef]].
    + vm_compute in Hfind. discriminate.
    + exact Hundef.
Defined.

(** C4 fails in the code on the value returned for an unknown
    username: ['bob'] is not an ID and no cached user is called ['bob'],
    and [resolveID] returns [undefined] (the value of [x?.id] on a
    failed [find]) where its documentation and its last line say
    [null]. *)
Lemma unknown_username_is_undefined :
  UserManager.base_resolveID users (VStr "bob") = VNull
  /\ Collection.find (fun u => user_username u =? "bob")
       (UserManager.cache acquainted) = None
  /\ UserManager.resolveID users acquainted (VStr "bob") = VUndefined
  /\ UserManager.resolveID users acquainted (VStr "bob") <> VNull.
Proof. repeat split; try reflexivity. discriminate. Qed.


(** C6 fails on the [user] option: with the user 123 in hand, or with
    the username of the cached user 123, [fetch({ user })] calls the ID
    endpoint with the user object, respectively with the username,
    where [fetch(user)] calls it with the ID ['123']. *)
Theorem fetch_option_passes_resolvable_to_id_endpoint :
  (UserManager.resolveID users acquainted (VUser alice) = VStr "123"
   /\ UserManager.calls
        (snd (UserManager.fetch users (VObj [("user", VUser alice)]) acquainted))
      = [UserManager.FetchUserById (VUser alice)]
   /\ UserManager.calls (snd (UserManager.fetch users (VUser alice) acquainted))
      = [UserManager.FetchUserById (VStr "123")])
  /\ (UserManager.resolveID users acquainted (VStr "alice") = VStr "123"
      /\ UserManager.calls
           (snd (UserManager.fetch users (VObj [("user", VStr "alice")]) acquainted))
         = [UserManager.FetchUserById (VStr "alice")]
      /\ UserManager.calls (snd (UserManager.fetch users (VStr "alice") acquainted))
         = [UserManager.FetchUserById (VStr "123")]).
Proof. repeat split; reflexivity. Qed.

(** C9, at work: the number [5] among the resolvables. *)
Lemma unresolvable_element_omitted_run :
  UserManager.buckets users acquainted [VStr "123"; VNum 5; VStr "bob"]
    = UserManager.buckets users acquainted [VStr "123"; VStr "bob"]
  /\ UserManager.fetch users (VObj [("user", VArr [VStr "123"; VNum 5; VStr "bob"])])
       acquainted
     = UserManager.fetch users (VObj [("user", VArr [VStr "123"; VStr "bob"])])
         acquainted
  /\ length (fst (UserManager.buckets users acquainted [VStr "123"; VNum 5; VStr "bob"]))
     + length (snd (UserManager.buckets users acquainted [VStr "123"; VNum 5; VStr "bob"]))
     < 3.
Proof.
  apply (unresolvable_element_omitted users
           (VObj [("user", VArr [VStr "123"; VNum 5; VStr "bob"])])
           (VObj [("user", VArr [VStr "123"; VStr "bob"])])
           [VStr "123"] [VStr "bob"] (VNum 5) acquainted).
  - reflexivity.
  - simpl. discriminate.
  - reflexivity.
  - reflexivity.
Defined.

End Runs.

(** * Further properties *)

(** ** Collection: lookup after insertion *)

Section CollectionFacts.

Context {V : Type}.

Lemma get_set_same (k : Snowflake) (v : V) (c : Collection.t V) :
  Collection.get k (Collection.set k v c) = Some v.
Proof.
  induction c as [|[k' v'] rest IH]; simpl.
  - rewrite String.eqb_refl. reflexivity.
  - destruct (k' =? k) eqn:Hk; simpl.
    + rewrite String.eqb_refl. reflexivity.
    + rewrite Hk. exact IH.
Qed.

Lemma get_set_other (k k' : Snowflake) (v : V) (c : Collection.t V) :
  k' <> k ->
  Collection.get k' (Collection.set k v c) = Collection.get k' c.
Proof.
  intros Hne. induction c as [|[k0 v0] rest IH]; simpl.
  - destruct (String.eqb_spec k k'); [congruence|reflexivity].
  - destruct (String.eqb_spec k0 k) as [->|Hk0]; simpl.
    + destruct (String.eqb_spec k k'); [congruence|reflexivity].
    + destruct (k0 =? k'); [reflexivity|exact IH].
Qed.

Lemma in_set (k k' : Snowflake) (v v' : V) (c : Collection.t V) :
  In (k', v') (Collection.set k v c) -> (k' = k /\ v' = v) \/ In (k', v') c.
Proof.
  induction c as [|[k0 v0] rest IH]; simpl.
  - intros [H|[]]. inversion H. left. split; reflexivity.
  - destruct (k0 =? k); simpl.
    + intros [H|H]; [inversion H; left; split; reflexivity | right; right; exact H].
    + intros [H|H]; [right; left; exact H|].
      destruct (IH H) as [Hnew|Hold]; [left; exact Hnew | right; right; exact Hold].
Qed.

(** [set] keeps the keys in place and appends a new key at the end. *)
Lemma keys_set (k : Snowflake) (v : V) (c : Collection.t V) :
  map fst (Collection.set k v c) =
  if existsb (String.eqb k) (map fst c) then map fst c else (map fst c ++ [k])%list.
Proof.
  induction c as [|[k0 v0] rest IH]; simpl; [reflexivity|].
  destruct (String.eqb_spec k0 k) as [->|Hne]; simpl.
  - rewrite String.eqb_refl. reflexivity.
  - destruct (String.eqb_spec k k0) as [Heq|_]; [congruence|]. simpl.
    rewrite IH. destruct (existsb (String.eqb k) (map fst rest)); reflexivity.
Qed.

Lemma unique_keys_set (k : Snowflake) (v : V) (c : Collection.t V) :
  Effect.unique_keys c -> Effect.unique_keys (Collection.set k v c).
Proof.
  unfold Effect.unique_keys. intros Hnd. rewrite keys_set.
  destruct (existsb (String.eqb k) (map fst c)) eqn:Hex; [exact Hnd|].
  apply NoDup_app; [exact Hnd | repeat constructor; intros [] |].
  intros x Hin [Hx|[]]. subst x.
  assert (Htrue : existsb (String.eqb k) (map fst c) = true).
  { apply existsb_exists. exists k. split; [exact Hin | apply String.eqb_refl]. }
  congruence.
Qed.

(** With unique keys, membership and lookup say the same. *)
Lemma get_in (k : Snowflake) (v : V) (c : Collection.t V) :
  Collection.get k c = Some v -> In (k, v) c.
Proof.
  induction c as [|[k0 v0] rest IH]; simpl; [discriminate|].
  destruct (String.eqb_spec k0 k) as [->|Hne].
  - intros H; inversion H. left. reflexivity.
  - intros H. right. exact (IH H).
Qed.


End CollectionFacts.

(** ** SpaceManager: the methods in closed form *)

Section SpaceManagerEffects.

Import SpaceManager.

Variable client : Client.

Lemma state_eta (s : state) : {| cache := cache s; calls := calls s |} = s.
Proof. destruct s; reflexivity. Qed.

Lemma add_run (id : Snowflake) (data : APISpace) (includes : option APIIncludes)
    (caf : value) (s : state) :
  _add id data includes caf s =
  (Return (Effect.entity includes data),
   {| cache := if Effect.caches caf
               then Collection.set id (Effect.entity includes data) (cache s)
               else cache s;
      calls := calls s |}).
Proof.
  unfold _add, Effect.caches, Effect.entity, bind, modify, ret.
  destruct caf as [| |[|]| | | | | |]; simpl; rewrite ?state_eta; reflexivity.
Qed.

Lemma add_each_run (rawSpaces : list (option APISpace)) (includes : option APIIncludes)
    (options caf : value) (acc : Collection.t Space) (s : state) :
  prop options "cacheAfterFetching" = Return caf ->
  add_each rawSpaces includes options acc s =
  ((if Effect.complete rawSpaces
    then Return (Effect.upsert_all includes (Effect.intact rawSpaces) acc)
    else Throw (TypeError "Cannot read properties of null (reading 'id')")),
   {| cache := if Effect.caches caf
               then Effect.upsert_all includes (Effect.intact rawSpaces) (cache s)
               else cache s;
      calls := calls s |}).
Proof.
  intros Hcaf. revert acc s.
  induction rawSpaces as [|[rawSpace|] rest IH]; intros acc s.
  - simpl. unfold ret. destruct (Effect.caches caf); rewrite state_eta; reflexivity.
  - cbn [add_each]. unfold bind at 1, lift at 1. rewrite Hcaf.
    unfold bind at 1. rewrite add_run. rewrite IH.
    cbn [cache calls Effect.upsert_all fold_left Effect.entity space_id
         Effect.complete Effect.intact].
    destruct (Effect.caches caf); reflexivity.
  - simpl. unfold throw. destruct (Effect.caches caf); rewrite state_eta; reflexivity.
Qed.

Lemma iterate_data_run (data : Envelope (list (option APISpace))) (options caf : value)
    (s : state) :
  prop options "cacheAfterFetching" = Return caf ->
  iterate_data data options s =
  match env_data data with
  | None => (Throw (TypeError "rawSpaces is not iterable"), s)
  | Some rawSpaces =>
      ((if Effect.complete rawSpaces
        then Return (Effect.upsert_all (env_includes data) (Effect.intact rawSpaces)
                       Collection.empty)
        else Throw (TypeError "Cannot read properties of null (reading 'id')")),
       {| cache := if Effect.caches caf
                   then Effect.upsert_all (env_includes data) (Effect.intact rawSpaces)
                          (cache s)
                   else cache s;
          calls := calls s |})
  end.
Proof.
  intros Hcaf. unfold iterate_data.
  destruct (env_data data) as [rawSpaces|]; [|reflexivity].
  apply add_each_run. exact Hcaf.
Qed.

Lemma fetchSingleSpace_run (spaceId : Snowflake) (options skip caf : value) (s : state) :
  prop options "skipCacheCheck" = Return skip ->
  prop options "cacheAfterFetching" = Return caf ->
  fetchSingleSpace client spaceId options s =
  match (if negb (truthy skip) then Collection.get spaceId (cache s) else None) with
  | Some sp => (Return sp, s)
  | None =>
      match api_one client (calls s) (GetSingleSpaceById spaceId) with
      | Rejected detail =>
          (Throw (RemoteApiError detail), Effect.logged (GetSingleSpaceById spaceId) s)
      | Resolved data =>
          match env_data data with
          | None =>
              (Throw (TypeError "Cannot read properties of undefined (reading 'id')"),
               Effect.logged (GetSingleSpaceById spaceId) s)
          | Some raw =>
              (Return (Effect.entity (env_includes data) raw),
               {| cache := if Effect.caches caf
                           then Collection.set (api_space_id raw)
                                  (Effect.entity (env_includes data) raw) (cache s)
                           else cache s;
                  calls := (calls s ++ [GetSingleSpaceById spaceId])%list |})
          end
      end
  end.
Proof.
  intros Hskip Hcaf. unfold fetchSingleSpace.
  unfold bind at 1, lift at 1. rewrite Hskip.
  unfold bind at 1.
  destruct (negb (truthy skip)); unfold gets, ret.
  - destruct (Collection.get spaceId (cache s)) as [sp|]; [reflexivity|].
    unfold bind at 1, request.
    destruct (api_one client (calls s) (GetSingleSpaceById spaceId)) as [data|detail];
      [|reflexivity].
    destruct (env_data data) as [raw|]; [|reflexivity].
    unfold bind, lift. rewrite Hcaf, add_run. reflexivity.
  - unfold bind at 1, request.
    destruct (api_one client (calls s) (GetSingleSpaceById spaceId)) as [data|detail];
      [|reflexivity].
    destruct (env_data data) as [raw|]; [|reflexivity].
    unfold bind, lift. rewrite Hcaf, add_run. reflexivity.
Qed.

Lemma fetchMultipleSpaces_run (spaceIds : list Snowflake) (options caf : value)
    (s : state) :
  prop options "cacheAfterFetching" = Return caf ->
  fetchMultipleSpaces client spaceIds options s =
  match api_many client (calls s) (GetMultipleSpacesByIds spaceIds) with
  | Rejected detail =>
      (Throw (RemoteApiError detail), Effect.logged (GetMultipleSpacesByIds spaceIds) s)
  | Resolved data =>
      match env_data data with
      | None => (Throw (TypeError "rawSpaces is not iterable"),
                 Effect.logged (GetMultipleSpacesByIds spaceIds) s)
      | Some rawSpaces =>
          ((if Effect.complete rawSpaces
            then Return (Effect.upsert_all (env_includes data) (Effect.intact rawSpaces)
                           Collection.empty)
            else Throw (TypeError "Cannot read properties of null (reading 'id')")),
           {| cache := if Effect.caches caf
                       then Effect.upsert_all (env_includes data)
                              (Effect.intact rawSpaces) (cache s)
                       else cache s;
              calls := (calls s ++ [GetMultipleSpacesByIds spaceIds])%list |})
      end
  end.
Proof.
  intros Hcaf. unfold fetchMultipleSpaces, bind, request.
  destruct (api_many client (calls s) (GetMultipleSpacesByIds spaceIds)) as [data|detail];
    [|reflexivity].
  rewrite (iterate_data_run data options caf _ Hcaf).
  destruct (env_data data); reflexivity.
Qed.

(** The tail shared by [fetchByCreatorIds] and [search]: the call, the
    [result_count] guard, the loop. *)
Lemma guarded_call_run (r : Request) (options caf : value) (s : state) :
  prop options "cacheAfterFetching" = Return caf ->
  (data <- request r (api_many client) ;; unless_empty data options) s =
  match api_many client (calls s) r with
  | Rejected detail => (Throw (RemoteApiError detail), Effect.logged r s)
  | Resolved data =>
      match env_meta data with
      | None =>
          (Throw (TypeError "Cannot read properties of undefined (reading 'result_count')"),
           Effect.logged r s)
      | Some meta =>
          if (result_count meta =? 0)%Z then (Return Collection.empty, Effect.logged r s)
          else
            match env_data data with
            | None => (Throw (TypeError "rawSpaces is not iterable"), Effect.logged r s)
            | Some rawSpaces =>
                ((if Effect.complete rawSpaces
                  then Return (Effect.upsert_all (env_includes data)
                                 (Effect.intact rawSpaces) Collection.empty)
                  else Throw (TypeError "Cannot read properties of null (reading 'id')")),
                 {| cache := if Effect.caches caf
                             then Effect.upsert_all (env_includes data)
                                    (Effect.intact rawSpaces) (cache s)
                             else cache s;
                    calls := (calls s ++ [r])%list |})
            end
      end
  end.
Proof.
  intros Hcaf. unfold bind, request.
  destruct (api_many client (calls s) r) as [data|detail]; [|reflexivity].
  unfold unless_empty.
  destruct (env_meta data) as [meta|]; [|reflexivity].
  destruct (result_count meta =? 0)%Z; [reflexivity|].
  rewrite (iterate_data_run data options caf _ Hcaf).
  destruct (env_data data); reflexivity.
Qed.

(** The error of the [map] over the resolvables is the one it was given. *)
Lemma resolve_each_error (resolve : value -> option Snowflake) (e e' : error)
    (items : list value) :
  resolve_each resolve e items = Throw e' -> e' = e.
Proof.
  induction items as [|x rest IH]; simpl; [discriminate|].
  destruct (truthy_id (resolve x)); [|intros H; inversion H; reflexivity].
  destruct (resolve_each resolve e rest) as [ids|e0]; [discriminate|].
  intros H; inversion H; subst. apply IH. reflexivity.
Qed.

Ltac unchanged := left; split; [reflexivity | intros ?; discriminate].

Ltac failed_call :=
  right; left; eexists _, _; split; [reflexivity | split; [reflexivity|]].

Lemma fetchSingleSpace_transition (spaceId : Snowflake) (options skip caf : value)
    (s : state) :
  prop options "skipCacheCheck" = Return skip ->
  prop options "cacheAfterFetching" = Return caf ->
  Effect.transition client (fst (fetchSingleSpace client spaceId options s)) s
    (snd (fetchSingleSpace client spaceId options s)).
Proof.
  intros Hskip Hcaf. rewrite (fetchSingleSpace_run spaceId options skip caf s Hskip Hcaf).
  destruct (if negb (truthy skip) then _ else _) as [sp|]; [unchanged|].
  destruct (api_one client (calls s) (GetSingleSpaceById spaceId)) as [data|detail] eqn:Hreply.
  - destruct (env_data data) as [raw|].
    + right; right.
      exists (GetSingleSpaceById spaceId), (env_includes data), [raw], (Effect.caches caf).
      split; [left; eexists; reflexivity | reflexivity].
    + failed_call. left. eexists. reflexivity.
  - failed_call. right. exists detail. split; [reflexivity | left; exact Hreply].
Qed.

Lemma map_outcome_transition {A B} (f : A -> B) (m : M state A) (s : state) :
  Effect.transition client (fst (m s)) s (snd (m s)) ->
  Effect.transition client (fst ((a <- m ;; ret (f a)) s)) s
    (snd ((a <- m ;; ret (f a)) s)).
Proof.
  unfold bind, ret. destruct (m s) as [[a|e] s1]; cbn [fst snd].
  - intros [[Hs Hne]|[[r [e [Ho _]]]|[r [inc [raws [w [Ho Hs]]]]]]].
    + left. split; [exact Hs | intros ?; discriminate].
    + discriminate.
    + right; right. exists r, inc, raws, w.
      split; [left; eexists; reflexivity | exact Hs].
  - intros [[Hs Hne]|[[r [e0 [Ho Hrest]]]|[r [inc [raws [w [Ho Hs]]]]]]].
    + left. split; [exact Hs|]. intros d Hd. apply (Hne d). congruence.
    + right; left. exists r, e0. split; [congruence | exact Hrest].
    + right; right. exists r, inc, raws, w. split; [|exact Hs].
      destruct Ho as [[a Ha]|Hnull]; [discriminate|].
      right. unfold Effect.null_element in *. congruence.
Qed.

Lemma fetchMultipleSpaces_transition (spaceIds : list Snowflake) (options caf : value)
    (s : state) :
  prop options "cacheAfterFetching" = Return caf ->
  Effect.transition client (fst (fetchMultipleSpaces client spaceIds options s)) s
    (snd (fetchMultipleSpaces client spaceIds options s)).
Proof.
  intros Hcaf. rewrite (fetchMultipleSpaces_run spaceIds options caf s Hcaf).
  destruct (api_many client (calls s) (GetMultipleSpacesByIds spaceIds))
    as [data|detail] eqn:Hreply.
  - destruct (env_data data) as [rawSpaces|].
    + right; right.
      exists (GetMultipleSpacesByIds spaceIds), (env_includes data),
        (Effect.intact rawSpaces), (Effect.caches caf).
      split; [|reflexivity].
      destruct (Effect.complete rawSpaces); [left; eexists; reflexivity | right; reflexivity].
    + failed_call. left. eexists. reflexivity.
  - failed_call. right. exists detail. split; [reflexivity | right; exact Hreply].
Qed.

Lemma guarded_call_transition (r : Request) (options caf : value) (s : state) :
  prop options "cacheAfterFetching" = Return caf ->
  Effect.transition client
    (fst ((data <- request r (api_many client) ;; unless_empty data options) s)) s
    (snd ((data <- request r (api_many client) ;; unless_empty data options) s)).
Proof.
  intros Hcaf. rewrite (guarded_call_run r options caf s Hcaf).
  destruct (api_many client (calls s) r) as [data|detail] eqn:Hreply.
  - destruct (env_meta data) as [meta|].
    + destruct (result_count meta =? 0)%Z.
      * right; right. exists r, None, [], false.
        split; [left; eexists; reflexivity | reflexivity].
      * destruct (env_data data) as [rawSpaces|].
        -- right; right.
           exists r, (env_includes data), (Effect.intact rawSpaces), (Effect.caches caf).
           split; [|reflexivity].
           destruct (Effect.complete rawSpaces); [left; eexists; reflexivity | right; reflexivity].
        -- failed_call. left. eexists. reflexivity.
    + failed_call. left. eexists. reflexivity.
  - failed_call. right. exists detail. split; [reflexivity | right; exact Hreply].
Qed.

(** Every run of [fetch] is one of the three transitions. *)
Lemma fetch_transition (options : value) (s : state) :
  Effect.transition client (fst (fetch client options s)) s
    (snd (fetch client options s)).
Proof.
  destruct options; try (cbn; unchanged).
  destruct (lookup "space" fields) as [space|] eqn:Hspace.
  - destruct (truthy_id (resolveId client space)) as [spaceId|] eqn:Hid.
    + rewrite (@fetch_space_path client (VObj fields) space spaceId s);
        [| cbn [has_property]; rewrite Hspace; reflexivity
         | cbn [prop]; rewrite Hspace; reflexivity
         | exact Hid].
      apply map_outcome_transition.
      eapply fetchSingleSpace_transition; reflexivity.
    + assert (Hrun : fetch client (VObj fields) s
                     = (Throw (CustomTypeError SPACE_RESOLVE_ID []), s)).
      { unfold fetch. cbn [typeof jstype_eqb negb].
        unfold bind at 1, lift at 1, has_property, prop. rewrite Hspace.
        unfold bind at 1, lift at 1. rewrite Hid. reflexivity. }
      rewrite Hrun. unchanged.
  - destruct (lookup "spaces" fields) as [spaces|] eqn:Hspaces.
    + destruct (isArray spaces) eqn:Harr.
      * destruct spaces; try discriminate.
        destruct (resolve_each (resolveId client)
                    (CustomTypeError SPACE_RESOLVE_ID []) items) as [spaceIds|e] eqn:Hids.
        -- assert (Hrun : fetch client (VObj fields) s
                          = (c <- fetchMultipleSpaces client spaceIds (VObj fields) ;;
                             ret (Many c)) s).
           { unfold fetch. cbn [typeof jstype_eqb negb].
             unfold bind at 1, lift at 1, has_property, prop. rewrite Hspace.
             unfold bind at 1, lift at 1. rewrite Hspaces.
             unfold bind at 1, lift at 1.
             unfold bind at 1, lift at 1. rewrite Hids. reflexivity. }
           rewrite Hrun. apply map_outcome_transition.
           eapply fetchMultipleSpaces_transition; reflexivity.
        -- assert (Hrun : fetch client (VObj fields) s = (Throw e, s)).
           { unfold fetch. cbn [typeof jstype_eqb negb].
             unfold bind at 1, lift at 1, has_property, prop. rewrite Hspace.
             unfold bind at 1, lift at 1. rewrite Hspaces.
             unfold bind at 1, lift at 1.
             unfold bind at 1, lift at 1. rewrite Hids. reflexivity. }
           rewrite Hrun. apply resolve_each_error in Hids. subst e. unchanged.
      * assert (Hrun : fetch client (VObj fields) s
                       = (Throw (CustomTypeError INVALID_TYPE ["spaces"; "array"]), s)).
        { unfold fetch. cbn [typeof jstype_eqb negb].
          unfold bind at 1, lift at 1, has_property, prop. rewrite Hspace.
          unfold bind at 1, lift at 1. rewrite Hspaces.
          unfold bind at 1, lift at 1.
          destruct spaces; try reflexivity. discriminate. }
        rewrite Hrun. unchanged.
    + assert (Hrun : fetch client (VObj fields) s
                     = (Throw (CustomTypeError INVALID_FETCH_OPTIONS []), s)).
      { unfold fetch. cbn [typeof jstype_eqb negb].
        unfold bind at 1, lift at 1, has_property, prop. rewrite Hspace.
        unfold bind at 1, lift at 1. rewrite Hspaces. reflexivity. }
      rewrite Hrun. unchanged.
Qed.

Lemma fetchByCreatorIds_transition (options : value) (s : state) :
  Effect.transition client (fst (fetchByCreatorIds client options s)) s
    (snd (fetchByCreatorIds client options s)).
Proof.
  remember (fetchByCreatorIds client options s) as run eqn:Hrun.
  unfold fetchByCreatorIds in Hrun.
  destruct (negb (jstype_eqb (typeof options) TObject)) eqn:Hty;
    [subst run; cbn; unchanged|].
  destruct (prop options "users") as [users|e] eqn:Husers.
  - assert (Hcaf : exists caf, prop options "cacheAfterFetching" = Return caf).
    { destruct options; simpl in *; try discriminate; eexists; reflexivity. }
    destruct Hcaf as [caf Hcaf].
    unfold bind at 1, lift at 1 in Hrun.
    destruct (isArray users) eqn:Harr.
    + destruct users; try discriminate.
      unfold bind at 1, lift at 1 in Hrun.
      destruct (resolve_each (users_resolveId client)
                  (CustomTypeError USER_RESOLVE_ID ["fetch spaces of"]) items)
        as [userIds|e] eqn:Hids.
      * subst run. apply (guarded_call_transition _ _ _ _ Hcaf).
      * subst run. apply resolve_each_error in Hids. subst e. unchanged.
    + subst run. destruct users; try discriminate; cbn; unchanged.
  - unfold bind at 1, lift at 1 in Hrun. subst run.
    left. split; [reflexivity|].
    intros d Hd. inversion Hd; subst.
    destruct options; simpl in Husers; discriminate.
Qed.

Lemma search_transition (options : value) (s : state) :
  Effect.transition client (fst (search client options s)) s
    (snd (search client options s)).
Proof.
  remember (search client options s) as run eqn:Hrun.
  unfold search in Hrun.
  unfold bind at 1, lift at 1 in Hrun.
  destruct (prop options "query") as [query|e] eqn:Hquery.
  - assert (Hprops : forall k, exists v, prop options k = Return v).
    { intros k. destruct options; simpl in *; try discriminate; eexists; reflexivity. }
    destruct (Hprops "maxResults") as [maxResults Hmax].
    destruct (Hprops "state") as [state Hstate].
    destruct (Hprops "cacheAfterFetching") as [caf Hcaf].
    unfold bind at 1, lift at 1 in Hrun. rewrite Hmax in Hrun.
    unfold bind at 1, lift at 1 in Hrun. rewrite Hstate in Hrun.
    subst run. apply (guarded_call_transition _ _ _ _ Hcaf).
  - subst run. left. split; [reflexivity|].
    intros d Hd. inversion Hd; subst.
    destruct options; simpl in Hquery; discriminate.
Qed.

(** ** SpaceManager: what no method does *)

Lemma upsert_all_unique (includes : option APIIncludes) (rawSpaces : list APISpace)
    (c : Collection.t Space) :
  Effect.unique_keys c -> Effect.unique_keys (Effect.upsert_all includes rawSpaces c).
Proof.
  revert c. induction rawSpaces as [|raw rest IH]; intros c Hc; [exact Hc|].
  apply IH. apply unique_keys_set. exact Hc.
Qed.

Lemma upsert_all_keyed (includes : option APIIncludes) (rawSpaces : list APISpace)
    (c : Collection.t Space) :
  Effect.keyed_by_id c -> Effect.keyed_by_id (Effect.upsert_all includes rawSpaces c).
Proof.
  revert c. induction rawSpaces as [|raw rest IH]; intros c Hc; [exact Hc|].
  apply IH. intros k sp Hin.
  destruct (in_set _ _ _ _ _ Hin) as [[-> ->]|Hold]; [reflexivity | exact (Hc k sp Hold)].
Qed.

Lemma upsert_all_keeps (includes : option APIIncludes) (rawSpaces : list APISpace)
    (c : Collection.t Space) (id : Snowflake) :
  Collection.get id c <> None ->
  Collection.get id (Effect.upsert_all includes rawSpaces c) <> None.
Proof.
  revert c. induction rawSpaces as [|raw rest IH]; intros c Hc; [exact Hc|].
  apply IH.
  destruct (String.eqb_spec id (api_space_id raw)) as [->|Hne].
  - rewrite get_set_same. discriminate.
  - rewrite get_set_other; assumption.
Qed.

Section Transitions.

Context {A : Type} (o : outcome A) (s s' : state).
Hypothesis Hstep : Effect.transition client o s s'.

Lemma transition_failure (e : error) :
  o = Throw e -> e <> Effect.null_element -> cache s' = cache s.
Proof.
  destruct Hstep as [[-> _]|[[r [e0 [_ [-> _]]]]|[r [inc [raws [w [Ho ->]]]]]]];
    intros H Hne; try reflexivity.
  destruct Ho as [[a Ha]|Hnull]; [congruence|].
  exfalso. apply Hne. congruence.
Qed.

Lemma transition_calls :
  calls s' = calls s \/ exists r, calls s' = (calls s ++ [r])%list.
Proof.
  destruct Hstep as [[-> _]|[[r [e0 [_ [-> _]]]]|[r [inc [raws [w [_ ->]]]]]]].
  - left. reflexivity.
  - right. exists r. reflexivity.
  - right. exists r. reflexivity.
Qed.

Lemma transition_remote (detail : string) :
  o = Throw (RemoteApiError detail) ->
  exists r, s' = Effect.logged r s
            /\ (api_one client (calls s) r = Rejected detail
                \/ api_many client (calls s) r = Rejected detail).
Proof.
  intros Ho.
  destruct Hstep as [[_ Hne]|[[r [e0 [He [Hs Hkind]]]]|[r [inc [raws [w [Hr _]]]]]]].
  - exfalso. exact (Hne detail Ho).
  - exists r. split; [exact Hs|].
    destruct Hkind as [[msg Hmsg]|[d [Hd Hrej]]]; subst; [congruence|].
    assert (d = detail) by congruence. subst d. exact Hrej.
  - destruct Hr as [[a Ha]|Hnull]; unfold Effect.null_element in *; congruence.
Qed.

Lemma transition_invariants :
  (Effect.unique_keys (cache s) -> Effect.unique_keys (cache s'))
  /\ (Effect.keyed_by_id (cache s) -> Effect.keyed_by_id (cache s'))
  /\ (forall id, Collection.get id (cache s) <> None ->
                 Collection.get id (cache s') <> None).
Proof.
  destruct Hstep as [[-> _]|[[r [e0 [_ [-> _]]]]|[r [inc [raws [w [_ ->]]]]]]];
    cbn [cache Effect.logged]; try (repeat split; intros; assumption).
  destruct w; repeat split; intros;
    auto using upsert_all_unique, upsert_all_keyed, upsert_all_keeps.
Qed.

End Transitions.

(** X1: a method that fails leaves the cache as it was, whether it
    failed on the options, on a resolvable, in the transport call or on
    a missing field of the envelope, with one exception: the error
    raised on a [null] element of the response, which comes after the
    elements before it were merged (see X21). *)
Theorem failure_keeps_cache (options : value) (s : state) (e : error) :
  e <> Effect.null_element ->
  (fst (fetch client options s) = Throw e ->
   cache (snd (fetch client options s)) = cache s)
  /\ (fst (fetchByCreatorIds client options s) = Throw e ->
      cache (snd (fetchByCreatorIds client options s)) = cache s)
  /\ (fst (search client options s) = Throw e ->
      cache (snd (search client options s)) = cache s).
Proof.
  intros Hne. repeat split; intros H.
  - eapply transition_failure; [apply fetch_transition | exact H | exact Hne].
  - eapply transition_failure; [apply fetchByCreatorIds_transition | exact H | exact Hne].
  - eapply transition_failure; [apply search_transition | exact H | exact Hne].
Qed.

(** X2: whatever the options, each public method issues at most one
    transport call: the log is unchanged or longer by one request. *)
Theorem at_most_one_call (options : value) (s : state) :
  (calls (snd (fetch client options s)) = calls s
   \/ exists r, calls (snd (fetch client options s)) = (calls s ++ [r])%list)
  /\ (calls (snd (fetchByCreatorIds client options s)) = calls s
      \/ exists r, calls (snd (fetchByCreatorIds client options s))
                   = (calls s ++ [r])%list)
  /\ (calls (snd (search client options s)) = calls s
      \/ exists r, calls (snd (search client options s)) = (calls s ++ [r])%list).
Proof.
  repeat split.
  - eapply transition_calls; apply fetch_transition.
  - eapply transition_calls; apply fetchByCreatorIds_transition.
  - eapply transition_calls; apply search_transition.
Qed.

(** X3: a [RemoteApiError] is always the transport's own rejection,
    passed on with its detail unchanged after a single call (no retry),
    and with the cache untouched. *)
Theorem remote_error_is_transport_rejection (options : value) (s : state)
    (detail : string) :
  (fst (fetch client options s) = Throw (RemoteApiError detail) ->
   exists r, snd (fetch client options s) = Effect.logged r s
             /\ (api_one client (calls s) r = Rejected detail
                 \/ api_many client (calls s) r = Rejected detail))
  /\ (fst (fetchByCreatorIds client options s) = Throw (RemoteApiError detail) ->
      exists r, snd (fetchByCreatorIds client options s) = Effect.logged r s
                /\ (api_one client (calls s) r = Rejected detail
                    \/ api_many client (calls s) r = Rejected detail))
  /\ (fst (search client options s) = Throw (RemoteApiError detail) ->
      exists r, snd (search client options s) = Effect.logged r s
                /\ (api_one client (calls s) r = Rejected detail
                    \/ api_many client (calls s) r = Rejected detail)).
Proof.
  repeat split; intros H.
  - eapply transition_remote; [apply fetch_transition | exact H].
  - eapply transition_remote; [apply fetchByCreatorIds_transition | exact H].
  - eapply transition_remote; [apply search_transition | exact H].
Qed.

(** X4: the methods keep the cache well formed: if no key occurs twice
    and every space is stored under its own ID before a call, the same
    holds after it, whatever the options and the reply. *)
Theorem cache_stays_well_formed (options : value) (s : state) :
  Effect.well_formed (cache s) ->
  Effect.well_formed (cache (snd (fetch client options s)))
  /\ Effect.well_formed (cache (snd (fetchByCreatorIds client options s)))
  /\ Effect.well_formed (cache (snd (search client options s))).
Proof.
  intros [Hunique Hkeyed].
  pose proof (transition_invariants _ _ _ (fetch_transition options s)) as [F1 [F2 _]].
  pose proof (transition_invariants _ _ _ (fetchByCreatorIds_transition options s))
    as [C1 [C2 _]].
  pose proof (transition_invariants _ _ _ (search_transition options s)) as [S1 [S2 _]].
  repeat split; auto.
Qed.

(** X5: no method evicts: an ID that is cached before a call is cached
    after it. *)
Theorem cached_ids_stay_cached (options : value) (s : state) (id : Snowflake) :
  Collection.get id (cache s) <> None ->
  Collection.get id (cache (snd (fetch client options s))) <> None
  /\ Collection.get id (cache (snd (fetchByCreatorIds client options s))) <> None
  /\ Collection.get id (cache (snd (search client options s))) <> None.
Proof.
  intros Hcached.
  pose proof (transition_invariants _ _ _ (fetch_transition options s)) as [_ [_ F]].
  pose proof (transition_invariants _ _ _ (fetchByCreatorIds_transition options s))
    as [_ [_ C]].
  pose proof (transition_invariants _ _ _ (search_transition options s)) as [_ [_ S]].
  repeat split; auto.
Qed.

(** ** SpaceManager: what a successful fetch returns and caches *)

Lemma caches_true (caf : value) : caf <> VBool false -> Effect.caches caf = true.
Proof. destruct caf as [| |[|]| | | | | |]; try reflexivity. congruence. Qed.

Lemma upsert_all_cons (includes : option APIIncludes) (raw : APISpace)
    (rest : list APISpace) (c : Collection.t Space) :
  Effect.upsert_all includes (raw :: rest) c =
  Effect.upsert_all includes rest
    (Collection.set (api_space_id raw) (Effect.entity includes raw) c).
Proof. reflexivity. Qed.

Lemma upsert_all_frame (includes : option APIIncludes) (rawSpaces : list APISpace)
    (c : Collection.t Space) (id : Snowflake) :
  ~ In id (map api_space_id rawSpaces) ->
  Collection.get id (Effect.upsert_all includes rawSpaces c) = Collection.get id c.
Proof.
  revert c. induction rawSpaces as [|raw rest IH]; intros c Hnot; [reflexivity|].
  rewrite upsert_all_cons.
  rewrite IH.
  - apply get_set_other. intros ->. apply Hnot. left. reflexivity.
  - intros Hin. apply Hnot. right. exact Hin.
Qed.

(** Under an ID of the response, the upserted collection holds the
    space built from a raw space of that ID, whatever it held before. *)
Lemma upsert_all_get (includes : option APIIncludes) (rawSpaces : list APISpace)
    (id : Snowflake) :
  In id (map api_space_id rawSpaces) ->
  exists raw, In raw rawSpaces /\ api_space_id raw = id
              /\ forall c, Collection.get id (Effect.upsert_all includes rawSpaces c)
                           = Some (Effect.entity includes raw).
Proof.
  induction rawSpaces as [|raw rest IH]; intros Hin; [destruct Hin|].
  destruct (in_dec string_dec id (map api_space_id rest)) as [Hrest|Hrest].
  - destruct (IH Hrest) as [raw' [Hraw' [Hid Hget]]].
    exists raw'. split; [right; exact Hraw'|]. split; [exact Hid|].
    intros c. apply Hget.
  - destruct Hin as [Hid|Hin]; [|contradiction].
    exists raw. split; [left; reflexivity|]. split; [exact Hid|].
    intros c. rewrite upsert_all_cons.
    rewrite (upsert_all_frame _ _ _ _ Hrest). subst id. apply get_set_same.
Qed.

Lemma upsert_all_merged (includes : option APIIncludes) (rawSpaces : list APISpace)
    (caf : value) (s : state) (r : Request) :
  Effect.merged includes rawSpaces caf
    (Effect.upsert_all includes rawSpaces Collection.empty) s
    {| cache := if Effect.caches caf
                then Effect.upsert_all includes rawSpaces (cache s)
                else cache s;
       calls := (calls s ++ [r])%list |}.
Proof.
  unfold Effect.merged. cbn [cache].
  assert (Hin : forall id sp,
             Collection.get id (Effect.upsert_all includes rawSpaces Collection.empty)
             = Some sp -> In id (map api_space_id rawSpaces)).
  { intros id sp Hget.
    destruct (in_dec string_dec id (map api_space_id rawSpaces)) as [H|H]; [exact H|].
    rewrite (upsert_all_frame _ _ _ _ H) in Hget. discriminate. }
  repeat split.
  - intros Hsome.
    destruct (Collection.get id _) as [sp|] eqn:Hget; [|congruence].
    exact (Hin id sp Hget).
  - intros H. destruct (upsert_all_get includes rawSpaces id H) as [raw [_ [_ Hget]]].
    rewrite Hget. discriminate.
  - destruct (upsert_all_get includes rawSpaces id (Hin id sp H)) as [raw [_ [Hid Hget]]].
    rewrite Hget in H. inversion H; subst. reflexivity.
  - destruct (upsert_all_get includes rawSpaces id (Hin id sp H)) as [raw [Hraw [Hid Hget]]].
    rewrite Hget in H. inversion H; subst. exists raw. repeat split; assumption.
  - apply upsert_all_unique. constructor.
  - intros Hon id sp Hget. rewrite (caches_true caf Hon).
    destruct (upsert_all_get includes rawSpaces id (Hin id sp Hget)) as [raw [_ [_ Hsame]]].
    rewrite Hsame in Hget. rewrite Hsame. exact Hget.
  - intros id Hnot. destruct (Effect.caches caf); [|reflexivity].
    apply upsert_all_frame. exact Hnot.
  - intros ->. reflexivity.
Qed.

Lemma intact_all (rawSpaces : list APISpace) :
  Effect.intact (map Some rawSpaces) = rawSpaces
  /\ Effect.complete (map Some rawSpaces) = true.
Proof.
  induction rawSpaces as [|raw rest [IHi IHc]]; split; simpl; congruence.
Qed.

Lemma intact_until_null (before : list APISpace) (after : list (option APISpace)) :
  Effect.intact (map Some before ++ None :: after) = before
  /\ Effect.complete (map Some before ++ None :: after) = false.
Proof.
  induction before as [|raw rest [IHi IHc]]; split; simpl; congruence.
Qed.

(** The multi-fetch path of [fetch], once every resolvable has
    resolved. *)
Lemma fetch_spaces_path {options : value} {items : list value}
    {spaceIds : list Snowflake} (s : state) :
  has_property "space" options = Return false ->
  prop options "spaces" = Return (VArr items) ->
  resolve_each (resolveId client) (CustomTypeError SPACE_RESOLVE_ID []) items
    = Return spaceIds ->
  fetch client options s =
  (c <- fetchMultipleSpaces client spaceIds options ;; ret (Many c)) s.
Proof.
  intros Hspace Hprop Hids.
  assert (Hobj := has_property_typeof Hspace).
  assert (Hspaces : has_property "spaces" options = Return true).
  { apply prop_array_has_property with (items := items);
      [exact Hobj | discriminate | discriminate | discriminate | exact Hprop]. }
  unfold fetch. rewrite Hobj. simpl.
  lift_step Hspace. lift_step Hspaces. lift_step Hprop. lift_step Hids.
  reflexivity.
Qed.



(** X7: when the lookup of several spaces succeeds (every element of
    the response is a raw space), the envelope is merged: the collection returned holds exactly the IDs of the
    response, each with the space built from the response; these spaces
    are in the cache afterwards unless [cacheAfterFetching] is [false],
    in which case the cache is as before; entries under other IDs are
    never touched. *)
Theorem fetch_many_merges (options caf : value) (items : list value)
    (spaceIds : list Snowflake) (s : state) (data : Envelope (list (option APISpace)))
    (rawSpaces : list APISpace) :
  has_property "space" options = Return false ->
  prop options "spaces" = Return (VArr items) ->
  resolve_each (resolveId client) (CustomTypeError SPACE_RESOLVE_ID []) items
    = Return spaceIds ->
  prop options "cacheAfterFetching" = Return caf ->
  api_many client (calls s) (GetMultipleSpacesByIds spaceIds) = Resolved data ->
  env_data data = Some (map Some rawSpaces) ->
  exists result,
    fst (fetch client options s) = Return (Many result)
    /\ Effect.merged (env_includes data) rawSpaces caf result s
         (snd (fetch client options s)).
Proof.
  intros Hspace Hprop Hids Hcaf Hreply Hdata.
  rewrite (fetch_spaces_path s Hspace Hprop Hids).
  unfold bind. rewrite (fetchMultipleSpaces_run spaceIds options caf s Hcaf).
  rewrite Hreply, Hdata.
  destruct (intact_all rawSpaces) as [-> ->]. cbn [fst snd ret].
  eexists. split; [reflexivity|]. apply upsert_all_merged.
Qed.

(** The path of [fetchByCreatorIds] to the transport. *)
Lemma fetchByCreatorIds_path {options : value} {items : list value}
    {userIds : list Snowflake} (s : state) :
  typeof options = TObject ->
  prop options "users" = Return (VArr items) ->
  resolve_each (users_resolveId client)
    (CustomTypeError USER_RESOLVE_ID ["fetch spaces of"]) items = Return userIds ->
  fetchByCreatorIds client options s =
  (data <- request (GetMultipleSpacesByCreatorIds userIds) (api_many client) ;;
   unless_empty data options) s.
Proof.
  intros Hobj Husers Hids. unfold fetchByCreatorIds. rewrite Hobj. simpl.
  lift_step Husers. lift_step Hids. reflexivity.
Qed.

(** X8: the same merge for the spaces of creators, when the envelope
    counts at least one result and every element is a raw space. *)
Theorem creator_spaces_merge (options caf : value) (items : list value)
    (userIds : list Snowflake) (s : state) (data : Envelope (list (option APISpace)))
    (meta : Meta) (rawSpaces : list APISpace) :
  typeof options = TObject ->
  prop options "users" = Return (VArr items) ->
  resolve_each (users_resolveId client)
    (CustomTypeError USER_RESOLVE_ID ["fetch spaces of"]) items = Return userIds ->
  prop options "cacheAfterFetching" = Return caf ->
  api_many client (calls s) (GetMultipleSpacesByCreatorIds userIds) = Resolved data ->
  env_meta data = Some meta ->
  result_count meta <> 0%Z ->
  env_data data = Some (map Some rawSpaces) ->
  exists result,
    fst (fetchByCreatorIds client options s) = Return result
    /\ calls (snd (fetchByCreatorIds client options s))
       = (calls s ++ [GetMultipleSpacesByCreatorIds userIds])%list
    /\ Effect.merged (env_includes data) rawSpaces caf result s
         (snd (fetchByCreatorIds client options s)).
Proof.
  intros Hobj Husers Hids Hcaf Hreply Hmeta Hcount Hdata.
  rewrite (fetchByCreatorIds_path s Hobj Husers Hids).
  rewrite (guarded_call_run _ options caf s Hcaf).
  rewrite Hreply, Hmeta, Hdata.
  destruct (Z.eqb_spec (result_count meta) 0) as [Hz|_]; [contradiction|].
  destruct (intact_all rawSpaces) as [-> ->]. cbn [fst snd calls].
  eexists. split; [reflexivity|]. split; [reflexivity|]. apply upsert_all_merged.
Qed.

(** A single fetch that goes to the transport and succeeds, in closed
    form. *)
Lemma fetch_single_success (options space skip caf : value)
    (spaceId : Snowflake) (s : state) (data : Envelope APISpace) (raw : APISpace) :
  has_property "space" options = Return true ->
  prop options "space" = Return space ->
  truthy_id (resolveId client space) = Some spaceId ->
  prop options "skipCacheCheck" = Return skip ->
  prop options "cacheAfterFetching" = Return caf ->
  truthy skip = true \/ Collection.get spaceId (cache s) = None ->
  api_one client (calls s) (GetSingleSpaceById spaceId) = Resolved data ->
  env_data data = Some raw ->
  fetch client options s =
  (Return (One (Effect.entity (env_includes data) raw)),
   {| cache := if Effect.caches caf
               then Collection.set (api_space_id raw)
                      (Effect.entity (env_includes data) raw) (cache s)
               else cache s;
      calls := (calls s ++ [GetSingleSpaceById spaceId])%list |}).
Proof.
  intros Hin Hprop Hid Hskip Hcaf Hmiss Hreply Hdata.
  rewrite (fetch_space_path client s Hin Hprop Hid).
  unfold bind. rewrite (fetchSingleSpace_run spaceId options skip caf s Hskip Hcaf).
  assert (Hlookup : (if negb (truthy skip) then Collection.get spaceId (cache s) else None)
                    = None).
  { destruct Hmiss as [->| ->]; [reflexivity | destruct (negb (truthy skip)); reflexivity]. }
  rewrite Hlookup, Hreply, Hdata. reflexivity.
Qed.

(** X9: a single fetch that goes to the transport and succeeds returns
    the space built from the envelope and logs one lookup.  Unless
    [cacheAfterFetching] is [false] the space is upserted under the ID
    that the response carries, replacing what was cached there; no
    other entry changes; with [cacheAfterFetching: false] the cache is
    as before. *)
Theorem fetch_single_from_transport (options space skip caf : value)
    (spaceId : Snowflake) (s : state) (data : Envelope APISpace) (raw : APISpace) :
  has_property "space" options = Return true ->
  prop options "space" = Return space ->
  truthy_id (resolveId client space) = Some spaceId ->
  prop options "skipCacheCheck" = Return skip ->
  prop options "cacheAfterFetching" = Return caf ->
  truthy skip = true \/ Collection.get spaceId (cache s) = None ->
  api_one client (calls s) (GetSingleSpaceById spaceId) = Resolved data ->
  env_data data = Some raw ->
  let built := Effect.entity (env_includes data) raw in
  let s' := snd (fetch client options s) in
  fst (fetch client options s) = Return (One built)
  /\ calls s' = (calls s ++ [GetSingleSpaceById spaceId])%list
  /\ (caf <> VBool false -> Collection.get (api_space_id raw) (cache s') = Some built)
  /\ (forall id, id <> api_space_id raw ->
                 Collection.get id (cache s') = Collection.get id (cache s))
  /\ (caf = VBool false -> cache s' = cache s).
Proof.
  intros Hin Hprop Hid Hskip Hcaf Hmiss Hreply Hdata built s'. subst s' built.
  rewrite (fetch_single_success options space skip caf spaceId s data raw
             Hin Hprop Hid Hskip Hcaf Hmiss Hreply Hdata).
  cbn [fst snd cache calls].
  repeat split.
  - intros Hon. rewrite (caches_true caf Hon). apply get_set_same.
  - intros id Hne. destruct (Effect.caches caf); [|reflexivity].
    apply get_set_other. exact Hne.
  - intros ->. reflexivity.
Qed.

(** X10: fetch, then fetch again.  When the first fetch misses the
    cache, the transport answers with the space that was asked for and
    caching is on, the second fetch of the same options is a cache hit:
    it returns the same space and leaves the manager, log included, as
    the first fetch left it. *)
Theorem refetch_hits_cache (options space skip caf : value)
    (spaceId : Snowflake) (s : state) (data : Envelope APISpace) (raw : APISpace) :
  has_property "space" options = Return true ->
  prop options "space" = Return space ->
  truthy_id (resolveId client space) = Some spaceId ->
  prop options "skipCacheCheck" = Return skip ->
  truthy skip = false ->
  prop options "cacheAfterFetching" = Return caf ->
  caf <> VBool false ->
  Collection.get spaceId (cache s) = None ->
  api_one client (calls s) (GetSingleSpaceById spaceId) = Resolved data ->
  env_data data = Some raw ->
  api_space_id raw = spaceId ->
  fetch client options (snd (fetch client options s)) = fetch client options s.
Proof.
  intros Hin Hprop Hid Hskip Hfalsy Hcaf Hon Hmiss Hreply Hdata Hsame.
  rewrite (fetch_single_success options space skip caf spaceId s data raw
             Hin Hprop Hid Hskip Hcaf (or_intror Hmiss) Hreply Hdata).
  cbn [snd]. rewrite (caches_true caf Hon).
  match goal with |- fetch client options ?s1 = _ =>
    rewrite (fetch_space_path client s1 Hin Hprop Hid);
    unfold bind;
    rewrite (fetchSingleSpace_run spaceId options skip caf s1 Hskip Hcaf)
  end.
  rewrite Hfalsy. cbn [negb cache]. rewrite <- Hsame at 1. rewrite get_set_same.
  reflexivity.
Qed.

(** X11: [fetchByCreatorIds] rejects, before any transport call, a list
    of creators one of which the user manager cannot resolve to an
    ID. *)
Theorem unresolvable_creator_rejected (options : value) (items : list value)
    (s : state) :
  typeof options = TObject ->
  prop options "users" = Return (VArr items) ->
  (exists x, In x items /\ truthy_id (users_resolveId client x) = None) ->
  fetchByCreatorIds client options s
  = (Throw (CustomTypeError USER_RESOLVE_ID ["fetch spaces of"]), s)
  /\ is_ResolutionError (CustomTypeError USER_RESOLVE_ID ["fetch spaces of"]) = true.
Proof.
  intros Hobj Husers Hbad. split; [|reflexivity].
  unfold fetchByCreatorIds. rewrite Hobj. simpl.
  lift_step Husers.
  unfold bind at 1, lift at 1.
  rewrite (resolve_each_unresolvable _ _ _ Hbad). reflexivity.
Qed.

(** X12: an envelope without the field a method reads makes it fail
    with a [TypeError] after the call, and the cache is not written:
    the lookup by IDs reads [data] whatever [meta] says,
    [fetchByCreatorIds] reads [meta] first. *)
Theorem incomplete_envelope_throws (options : value) (items : list value)
    (ids : list Snowflake) (s : state) (data : Envelope (list (option APISpace))) :
  (has_property "space" options = Return false ->
   prop options "spaces" = Return (VArr items) ->
   resolve_each (resolveId client) (CustomTypeError SPACE_RESOLVE_ID []) items
     = Return ids ->
   api_many client (calls s) (GetMultipleSpacesByIds ids) = Resolved data ->
   env_data data = None ->
   fetch client options s
   = (Throw (TypeError "rawSpaces is not iterable"),
      Effect.logged (GetMultipleSpacesByIds ids) s))
  /\
  (typeof options = TObject ->
   prop options "users" = Return (VArr items) ->
   resolve_each (users_resolveId client)
     (CustomTypeError USER_RESOLVE_ID ["fetch spaces of"]) items = Return ids ->
   api_many client (calls s) (GetMultipleSpacesByCreatorIds ids) = Resolved data ->
   env_meta data = None ->
   fetchByCreatorIds client options s
   = (Throw (TypeError "Cannot read properties of undefined (reading 'result_count')"),
      Effect.logged (GetMultipleSpacesByCreatorIds ids) s)).
Proof.
  split.
  - intros Hspace Hprop Hids Hreply Hdata.
    rewrite (fetch_spaces_path s Hspace Hprop Hids).
    destruct (has_property_not_null "cacheAfterFetching" Hspace) as [caf Hcaf].
    unfold bind. rewrite (fetchMultipleSpaces_run ids options caf s Hcaf).
    rewrite Hreply, Hdata. reflexivity.
  - intros Hobj Husers Hids Hreply Hmeta.
    rewrite (fetchByCreatorIds_path s Hobj Husers Hids).
    assert (Hcaf : exists caf, prop options "cacheAfterFetching" = Return caf).
    { destruct options; simpl in *; try discriminate; eexists; reflexivity. }
    destruct Hcaf as [caf Hcaf].
    rewrite (guarded_call_run _ options caf s Hcaf).
    rewrite Hreply, Hmeta. reflexivity.
Qed.

(** X21: a [null] element in the response stops the merge half way.
    The lookup of several spaces then fails with the [TypeError] of
    reading [rawSpace.id], after the call and after the raw spaces
    before the [null] element were merged: unless [cacheAfterFetching]
    is [false] they are in the cache; the elements after it, and every
    other ID, are as before. *)
Theorem null_element_stops_the_merge (options caf : value) (items : list value)
    (spaceIds : list Snowflake) (s : state) (data : Envelope (list (option APISpace)))
    (before : list APISpace) (after : list (option APISpace)) :
  has_property "space" options = Return false ->
  prop options "spaces" = Return (VArr items) ->
  resolve_each (resolveId client) (CustomTypeError SPACE_RESOLVE_ID []) items
    = Return spaceIds ->
  prop options "cacheAfterFetching" = Return caf ->
  api_many client (calls s) (GetMultipleSpacesByIds spaceIds) = Resolved data ->
  env_data data = Some (map Some before ++ None :: after)%list ->
  let s' := snd (fetch client options s) in
  fst (fetch client options s) = Throw Effect.null_element
  /\ calls s' = (calls s ++ [GetMultipleSpacesByIds spaceIds])%list
  /\ (caf <> VBool false ->
      forall raw, In raw before ->
        exists raw', In raw' before /\ api_space_id raw' = api_space_id raw
          /\ Collection.get (api_space_id raw) (cache s')
             = Some (Effect.entity (env_includes data) raw'))
  /\ (forall id, ~ In id (map api_space_id before) ->
                 Collection.get id (cache s') = Collection.get id (cache s))
  /\ (caf = VBool false -> cache s' = cache s).
Proof.
  intros Hspace Hprop Hids Hcaf Hreply Hdata s'. subst s'.
  rewrite (fetch_spaces_path s Hspace Hprop Hids).
  unfold bind. rewrite (fetchMultipleSpaces_run spaceIds options caf s Hcaf).
  rewrite Hreply, Hdata.
  destruct (intact_until_null before after) as [-> ->]. cbn [fst snd cache calls].
  repeat split.
  - intros Hon raw Hin. rewrite (caches_true caf Hon).
    destruct (upsert_all_get (env_includes data) before (api_space_id raw)
                (in_map api_space_id before raw Hin)) as [raw' [Hin' [Hid Hget]]].
    exists raw'. repeat split; [exact Hin' | exact Hid | apply Hget].
  - intros id Hnot. destruct (Effect.caches caf); [|reflexivity].
    apply upsert_all_frame. exact Hnot.
  - intros ->. reflexivity.
Qed.

Lemma search_error_kind (options : value) (s : state) (e : error) :
  fst (search client options s) = Throw e ->
  is_InvalidArgument e = false /\ is_ResolutionError e = false.
Proof.
  destruct (prop options "query") as [query|e0] eqn:Hq.
  - assert (Hprops : forall k, exists v, prop options k = Return v).
    { intros k. destruct options; simpl in *; try discriminate; eexists; reflexivity. }
    destruct (Hprops "maxResults") as [m Hm]. destruct (Hprops "state") as [st Hst].
    destruct (Hprops "cacheAfterFetching") as [caf Hcaf].
    unfold search. lift_step Hq. lift_step Hm. lift_step Hst.
    rewrite (guarded_call_run _ options caf s Hcaf).
    destruct (api_many client (calls s) _) as [data|detail];
      [destruct (env_meta data) as [meta|];
       [destruct (result_count meta =? 0)%Z;
        [|destruct (env_data data) as [rawSpaces|];
          [destruct (Effect.complete rawSpaces)|]]|]|];
      cbn [fst]; intros H; inversion H; split; reflexivity.
  - unfold search. lift_step Hq. cbn [fst]. intros H. inversion H; subst.
    destruct options; simpl in Hq; try discriminate; inversion Hq; split; reflexivity.
Qed.

(** X13: [search] checks nothing.  On [undefined] or [null] reading
    [options.query] throws a [TypeError] before any call; on any other
    value one search request is sent with [options.query],
    [options.maxResults] and [options.state] as they are read
    ([undefined] when absent); none of its errors is an invalid-argument
    or a resolution error. *)
Theorem search_checks_nothing (options : value) (s : state) :
  (options = VUndefined \/ options = VNull ->
   search client options s = (Throw (TypeError "Cannot read properties"), s))
  /\
  (forall query maxResults state,
     prop options "query" = Return query ->
     prop options "maxResults" = Return maxResults ->
     prop options "state" = Return state ->
     calls (snd (search client options s))
     = (calls s ++ [GetMultipleSpacesBySearch query maxResults state])%list)
  /\
  (forall e, fst (search client options s) = Throw e ->
             is_InvalidArgument e = false /\ is_ResolutionError e = false).
Proof.
  split; [|split].
  - intros [-> | ->]; reflexivity.
  - intros query maxResults state Hq Hm Hs.
    assert (Hcaf : exists caf, prop options "cacheAfterFetching" = Return caf).
    { destruct options; simpl in *; try discriminate; eexists; reflexivity. }
    destruct Hcaf as [caf Hcaf].
    unfold search. lift_step Hq. lift_step Hm. lift_step Hs.
    rewrite (guarded_call_run _ options caf s Hcaf).
    destruct (api_many client (calls s) _) as [data|detail]; [|reflexivity].
    destruct (env_meta data) as [meta|]; [|reflexivity].
    destruct (result_count meta =? 0)%Z; [reflexivity|].
    destruct (env_data data) as [rawSpaces|]; [destruct (Effect.complete rawSpaces)|];
      reflexivity.
  - intros e. apply search_error_kind.
Qed.

End SpaceManagerEffects.

(** ** UserManager: resolution and routing *)

Section UserManagerEffects.

Import UserManager.

Variable client : Client.

(** X14: [resolve] only ever returns the user it was handed or a user
    of the cache, and [resolveID] then names that user: when every
    cached user is stored under their own ID and the user found has a
    non-empty ID, [resolveID] of the same input is that user's ID. *)
Theorem resolve_agrees_with_resolveID (this : state) (x : value) (u : User) :
  resolve client this x = VUser u ->
  (x = VUser u \/ exists k, In (k, u) (cache this))
  /\ (Effect.keyed_by_user_id (cache this) -> user_id u <> "" ->
      resolveID client this x = VStr (user_id u)).
Proof.
  intros Hres.
  destruct x; try (unfold resolve in Hres; simpl in Hres; discriminate).
  - (* a string *)
    unfold resolve, resolveID, base_resolve in *.
    cbn [base_resolveID typeof jstype_eqb] in *.
    destruct (id_format client s) eqn:Hfmt.
    + destruct (Collection.get s (cache this)) as [u'|] eqn:Hget.
      * cbn [truthy] in Hres. inversion Hres; subst u'.
        split; [right; exists s; apply get_in; exact Hget|].
        intros Hkeyed Hid.
        assert (Hs : user_id u = s) by (apply Hkeyed; apply get_in; exact Hget).
        subst s. cbn [truthy].
        destruct (String.eqb_spec (user_id u) ""); [contradiction|reflexivity].
      * cbn [truthy] in *.
        destruct (negb (s =? "")).
        -- cbn [base_resolveID] in Hres. rewrite Hfmt, Hget in Hres. discriminate.
        -- unfold find_by_username in *.
           destruct (Collection.find _ (cache this)) as [u'|] eqn:Hfind; [|discriminate].
           inversion Hres; subst u'.
           destruct (find_some Hfind) as [_ [k Hin]].
           split; [right; exists k; exact Hin | reflexivity].
    + cbn [truthy] in *. unfold find_by_username in *.
      destruct (Collection.find _ (cache this)) as [u'|] eqn:Hfind; [|discriminate].
      inversion Hres; subst u'.
      destruct (find_some Hfind) as [_ [k Hin]].
      split; [right; exists k; exact Hin | reflexivity].
  - (* a user *)
    unfold resolve in Hres. cbn in Hres. inversion Hres; subst u0.
    split; [left; reflexivity|].
    intros _ Hid. unfold resolveID. cbn [base_resolveID truthy].
    destruct (String.eqb_spec (user_id u) ""); [contradiction|reflexivity].
Qed.





(** One REST call followed by the builder. *)
Lemma call_then_build (r : RestCall) (s : state) :
  let run := (userData <- request client r ;; build client userData) s in
  calls (snd run) = (calls s ++ [r])%list
  /\ (forall e, fst run = Throw e -> cache (snd run) = cache s).
Proof.
  unfold bind, request, build.
  destruct (rest client (calls s) r) as [data|detail]; cbn [cache calls fst snd].
  - destruct (userBuilder client data (cache s)) as [built c]. cbn [fst snd calls].
    split; [reflexivity | intros e H; discriminate].
  - split; reflexivity.
Qed.

(** The two direct paths and the four paths through [options.user]. *)
Lemma fetch_direct_id (options : value) (s : state) :
  truthy (resolveID client s options) = true ->
  fetch client options s =
  (userData <- request client (FetchUserById (resolveID client s options)) ;;
   build client userData) s.
Proof.
  intros Hid. unfold fetch. unfold bind at 1, gets at 1. rewrite Hid. reflexivity.
Qed.

Lemma fetch_direct_username (options : value) (s : state) :
  truthy (resolveID client s options) = false ->
  typeof options = TString ->
  fetch client options s =
  (userData <- request client (FetchUserByUsername options) ;;
   build client userData) s.
Proof.
  intros Hid Hstr. unfold fetch. unfold bind at 1, gets at 1.
  rewrite Hid, Hstr. reflexivity.
Qed.

Lemma fetch_through_user (options : value) (s : state) :
  truthy (resolveID client s options) = false ->
  typeof options <> TString ->
  fetch client options s =
  (user <- lift (prop options "user") ;;
   if truthy user then
     match user with
     | VArr items => fetch_array client items
     | _ =>
         userID <- gets (fun s0 => resolveID client s0 user) ;;
         if truthy userID then
           userData <- _fetchSingle client user ID ;; build client userData
         else if jstype_eqb (typeof user) TString then
           userData <- _fetchSingle client user USERNAME ;; build client userData
         else ret VUndefined
     end
   else ret VUndefined) s.
Proof.
  intros Hid Hstr. unfold fetch. unfold bind at 1, gets at 1. rewrite Hid.
  destruct (typeof options); try reflexivity. congruence.
Qed.

Lemma fetch_option_id (options user : value) (s : state) :
  truthy (resolveID client s options) = false ->
  typeof options <> TString ->
  prop options "user" = Return user ->
  truthy user = true -> isArray user = false ->
  truthy (resolveID client s user) = true ->
  fetch client options s =
  (userData <- request client (FetchUserById user) ;; build client userData) s.
Proof.
  intros Hid Hstr Hprop Htruthy Harr Huser.
  rewrite (fetch_through_user options s Hid Hstr).
  lift_step Hprop. rewrite Htruthy.
  destruct user; try discriminate;
    unfold bind at 1, gets at 1; rewrite Huser; reflexivity.
Qed.

Lemma fetch_option_username (options user : value) (s : state) :
  truthy (resolveID client s options) = false ->
  typeof options <> TString ->
  prop options "user" = Return user ->
  truthy user = true ->
  truthy (resolveID client s user) = false ->
  typeof user = TString ->
  fetch client options s =
  (userData <- request client (FetchUserByUsername user) ;; build client userData) s.
Proof.
  intros Hid Hstr Hprop Htruthy Huser Hus.
  rewrite (fetch_through_user options s Hid Hstr).
  lift_step Hprop. rewrite Htruthy.
  destruct user; try discriminate.
  unfold bind at 1, gets at 1. rewrite Huser. reflexivity.
Qed.

Lemma fetch_option_nothing (options user : value) (s : state) :
  truthy (resolveID client s options) = false ->
  typeof options <> TString ->
  prop options "user" = Return user ->
  truthy user = false
  \/ (isArray user = false /\ truthy (resolveID client s user) = false
      /\ typeof user <> TString) ->
  fetch client options s = (Return VUndefined, s).
Proof.
  intros Hid Hstr Hprop Hcase.
  rewrite (fetch_through_user options s Hid Hstr).
  lift_step Hprop.
  destruct Hcase as [Hfalsy|[Harr [Huser Hus]]].
  - rewrite Hfalsy. reflexivity.
  - destruct (truthy user); [|reflexivity].
    destruct user; try discriminate;
      unfold bind at 1, gets at 1; rewrite Huser;
      try reflexivity.
    exfalso. apply Hus. reflexivity.
Qed.

(** X15: a resolvable handed to [fetch] directly always costs one REST
    call, cached or not: the ID endpoint with the resolved ID when the
    resolvable has one, the username endpoint with the string
    otherwise. *)
Theorem fetch_direct_routing (options : value) (s : state) :
  (truthy (resolveID client s options) = true ->
   calls (snd (fetch client options s))
   = (calls s ++ [FetchUserById (resolveID client s options)])%list)
  /\ (truthy (resolveID client s options) = false ->
      typeof options = TString ->
      calls (snd (fetch client options s))
      = (calls s ++ [FetchUserByUsername options])%list).
Proof.
  split.
  - intros Hid. rewrite (fetch_direct_id options s Hid). apply call_then_build.
  - intros Hid Hstr. rewrite (fetch_direct_username options s Hid Hstr).
    apply call_then_build.
Qed.

(** X16: a resolvable handed to [fetch] in the [user] option of an
    options object costs one REST call too, and the endpoint is handed
    [options.user] as it is: the ID endpoint when it resolves to an ID,
    the username endpoint when it does not and is a string. *)
Theorem fetch_option_routing (options user : value) (s : state) :
  truthy (resolveID client s options) = false ->
  typeof options <> TString ->
  prop options "user" = Return user ->
  truthy user = true ->
  isArray user = false ->
  (truthy (resolveID client s user) = true ->
   calls (snd (fetch client options s)) = (calls s ++ [FetchUserById user])%list)
  /\ (truthy (resolveID client s user) = false ->
      typeof user = TString ->
      calls (snd (fetch client options s))
      = (calls s ++ [FetchUserByUsername user])%list).
Proof.
  intros Hid Hstr Hprop Htruthy Harr. split.
  - intros Huser.
    rewrite (fetch_option_id options user s Hid Hstr Hprop Htruthy Harr Huser).
    apply call_then_build.
  - intros Huser Hus.
    rewrite (fetch_option_username options user s Hid Hstr Hprop Htruthy Huser Hus).
    apply call_then_build.
Qed.

(** X17: [fetch] validates nothing.  Options that are neither a
    resolvable nor an object with a usable [user] (no [user], a falsy
    one, or one that is no array, has no ID and is no string) make it
    return [undefined] without a call and without an error; [undefined]
    and [null] make the read of [options.user] throw a [TypeError]. *)
Theorem fetch_ignores_unusable_options (options : value) (s : state) :
  (forall user,
     truthy (resolveID client s options) = false ->
     typeof options <> TString ->
     prop options "user" = Return user ->
     truthy user = false
     \/ (isArray user = false /\ truthy (resolveID client s user) = false
         /\ typeof user <> TString) ->
     fetch client options s = (Return VUndefined, s))
  /\ (options = VUndefined \/ options = VNull ->
      fetch client options s = (Throw (TypeError "Cannot read properties"), s)).
Proof.
  split.
  - intros user. apply fetch_option_nothing.
  - intros [-> | ->]; reflexivity.
Qed.

Lemma fetch_array_effects (items : list value) (s : state) :
  (exists issued,
      calls (snd (fetch_array client items s)) = (calls s ++ issued)%list
      /\ length issued <= 2)
  /\ (forall e, fst (fetch_array client items s) = Throw e ->
                cache (snd (fetch_array client items s)) = cache s).
Proof.
  unfold fetch_array, bind, gets, ret, _fetchMany, request, build.
  destruct (nonempty (fst (buckets client s items))),
           (nonempty (snd (buckets client s items)));
    repeat match goal with
      | |- context [rest client ?l ?r] =>
          destruct (rest client l r); cbn [cache calls fst snd]
      | |- context [userBuilder client ?d ?c] =>
          destruct (userBuilder client d c); cbn [cache calls fst snd]
      end;
    cbn [cache calls fst snd];
    (split; [| intros e H; solve [reflexivity | discriminate]]).
  all: match goal with
       | |- exists issued, ?l = (?l ++ issued)%list /\ _ =>
           exists []; rewrite app_nil_r
       | |- exists issued, ((?l ++ [?a]) ++ [?b])%list = _ /\ _ =>
           exists [a; b]; rewrite <- app_assoc
       | |- exists issued, (?l ++ ?i)%list = _ /\ _ => exists i
       end.
  all: split; [reflexivity | simpl; lia].
Qed.

(** X18: whatever it is given, [fetch] issues at most two REST calls,
    appended to the log, and a fetch that fails leaves the cache as it
    was: the builder, the only writer, runs after the last call. *)
Theorem fetch_calls_and_failure (options : value) (s : state) :
  (exists issued,
      calls (snd (fetch client options s)) = (calls s ++ issued)%list
      /\ length issued <= 2)
  /\ (forall e, fst (fetch client options s) = Throw e ->
                cache (snd (fetch client options s)) = cache s).
Proof.
  assert (Hsingle : forall r run,
            run = (userData <- request client r ;; build client userData) s ->
            (exists issued, calls (snd run) = (calls s ++ issued)%list
                            /\ length issued <= 2)
            /\ (forall e, fst run = Throw e -> cache (snd run) = cache s)).
  { intros r run ->. destruct (call_then_build r s) as [Hcalls Hfail].
    split; [exists [r]; split; [exact Hcalls | simpl; lia] | exact Hfail]. }
  assert (Hnone : forall o,
            (exists issued, calls (snd (o, s)) = (calls s ++ issued)%list
                            /\ length issued <= 2)
            /\ (forall e, fst (o : outcome value, s) = Throw e ->
                          cache (snd (o, s)) = cache s)).
  { intros o. split; [exists []; rewrite app_nil_r; split; [reflexivity | simpl; lia]
                     | reflexivity]. }
  destruct (truthy (resolveID client s options)) eqn:Hid.
  { apply (Hsingle _ _ (fetch_direct_id options s Hid)). }
  destruct (jstype_eqb (typeof options) TString) eqn:Hstr.
  { assert (Hty : typeof options = TString) by (destruct (typeof options); try discriminate; reflexivity).
    apply (Hsingle _ _ (fetch_direct_username options s Hid Hty)). }
  assert (Hty : typeof options <> TString) by (intros H; rewrite H in Hstr; discriminate).
  destruct (prop options "user") as [user|e0] eqn:Hprop.
  - destruct (truthy user) eqn:Htruthy.
    + destruct (isArray user) eqn:Harr.
      * destruct user; try discriminate.
        rewrite (fetch_through_user options s Hid Hty). lift_step Hprop.
        cbn [truthy]. apply fetch_array_effects.
      * destruct (truthy (resolveID client s user)) eqn:Huser.
        -- apply (Hsingle _ _ (fetch_option_id options user s Hid Hty Hprop Htruthy Harr Huser)).
        -- destruct (jstype_eqb (typeof user) TString) eqn:Hus.
           ++ assert (Hut : typeof user = TString)
                by (destruct (typeof user); try discriminate; reflexivity).
              apply (Hsingle _ _ (fetch_option_username options user s Hid Hty Hprop
                                    Htruthy Huser Hut)).
           ++ assert (Hut : typeof user <> TString)
                by (intros H; rewrite H in Hus; discriminate).
              rewrite (fetch_option_nothing options user s Hid Hty Hprop
                         (or_intror (conj Harr (conj Huser Hut)))).
              apply Hnone.
    + rewrite (fetch_option_nothing options user s Hid Hty Hprop (or_introl Htruthy)).
      apply Hnone.
  - rewrite (fetch_through_user options s Hid Hty). lift_step Hprop. apply Hnone.
Qed.

End UserManagerEffects.

(** ** The further properties at work *)

Section MoreRuns.

Import Session Scenario.

Lemma failure_keeps_cache_run :
  SpaceManager.cache (snd (SpaceManager.fetch barren (VObj [("space", VStr "2")]) warm))
    = SpaceManager.cache warm
  /\ SpaceManager.cache (snd (SpaceManager.fetchByCreatorIds barren (VNum 5) warm))
     = SpaceManager.cache warm
  /\ SpaceManager.cache (snd (SpaceManager.search barren VNull warm))
     = SpaceManager.cache warm.
Proof.
  split; [|split].
  - refine (proj1 (failure_keeps_cache barren (VObj [("space", VStr "2")]) warm
                     (TypeError "Cannot read properties of undefined (reading 'id')") _) _);
      [discriminate | reflexivity].
  - refine (proj1 (proj2 (failure_keeps_cache barren (VNum 5) warm
                     (CustomTypeError INVALID_TYPE ["options"; "object"]) _)) _);
      [discriminate | reflexivity].
  - refine (proj2 (proj2 (failure_keeps_cache barren VNull warm
                     (TypeError "Cannot read properties") _)) _);
      [discriminate | reflexivity].
Defined.

Lemma remote_error_is_transport_rejection_run :
  exists r,
    snd (SpaceManager.fetch unreachable (VObj [("space", VStr "2")]) warm)
      = Effect.logged r warm
    /\ (SpaceManager.api_one unreachable (SpaceManager.calls warm) r = Rejected "503"
        \/ SpaceManager.api_many unreachable (SpaceManager.calls warm) r = Rejected "503").
Proof.
  apply (proj1 (remote_error_is_transport_rejection unreachable
                  (VObj [("space", VStr "2")]) warm "503")).
  reflexivity.
Defined.

Lemma warm_well_formed : Effect.well_formed (SpaceManager.cache warm).
Proof.
  split.
  - repeat constructor. intros [].
  - intros k sp [H|[]]. inversion H. reflexivity.
Defined.

Lemma cache_stays_well_formed_run :
  Effect.well_formed
    (SpaceManager.cache
       (snd (SpaceManager.fetch obliging (VObj [("spaces", VArr [VStr "1"; VStr "2"])]) warm))).
Proof.
  apply (proj1 (cache_stays_well_formed obliging
                  (VObj [("spaces", VArr [VStr "1"; VStr "2"])]) warm warm_well_formed)).
Defined.

Lemma cached_ids_stay_cached_run :
  Collection.get "1"
    (SpaceManager.cache
       (snd (SpaceManager.fetch obliging (VObj [("spaces", VArr [VStr "2"])]) warm)))
  <> None.
Proof.
  refine (proj1 (cached_ids_stay_cached obliging
                   (VObj [("spaces", VArr [VStr "2"])]) warm "1" _)).
  discriminate.
Defined.


Lemma fetch_many_merges_run :
  exists result,
    fst (SpaceManager.fetch obliging (VObj [("spaces", VArr [VStr "1"; VStr "2"])]) warm)
      = Return (SpaceManager.Many result)
    /\ Effect.merged None [raw_space "1"; raw_space "2"] VUndefined result warm
         (snd (SpaceManager.fetch obliging
                 (VObj [("spaces", VArr [VStr "1"; VStr "2"])]) warm)).
Proof.
  apply (fetch_many_merges obliging (VObj [("spaces", VArr [VStr "1"; VStr "2"])])
           VUndefined [VStr "1"; VStr "2"] ["1"; "2"] warm both
           [raw_space "1"; raw_space "2"]);
    reflexivity.
Defined.

Lemma creator_spaces_merge_run :
  exists result,
    fst (SpaceManager.fetchByCreatorIds obliging
           (VObj [("users", VArr [VStr "1"; VStr "2"]); ("cacheAfterFetching", VBool false)])
           warm)
      = Return result
    /\ SpaceManager.calls
         (snd (SpaceManager.fetchByCreatorIds obliging
                 (VObj [("users", VArr [VStr "1"; VStr "2"]);
                        ("cacheAfterFetching", VBool false)]) warm))
       = [SpaceManager.GetMultipleSpacesByCreatorIds ["1"; "2"]]
    /\ Effect.merged None [raw_space "1"; raw_space "2"] (VBool false) result warm
         (snd (SpaceManager.fetchByCreatorIds obliging
                 (VObj [("users", VArr [VStr "1"; VStr "2"]);
                        ("cacheAfterFetching", VBool false)]) warm)).
Proof.
  apply (creator_spaces_merge obliging
           (VObj [("users", VArr [VStr "1"; VStr "2"]); ("cacheAfterFetching", VBool false)])
           (VBool false) [VStr "1"; VStr "2"] ["1"; "2"] warm both (mkMeta 2 None)
           [raw_space "1"; raw_space "2"]);
    try reflexivity.
  discriminate.
Defined.

Lemma fetch_single_from_transport_run :
  fst (SpaceManager.fetch obliging (VObj [("space", VStr "2")]) warm)
    = Return (SpaceManager.One space2)
  /\ Collection.get "2"
       (SpaceManager.cache (snd (SpaceManager.fetch obliging (VObj [("space", VStr "2")]) warm)))
     = Some space2.
Proof.
  destruct (fetch_single_from_transport obliging (VObj [("space", VStr "2")])
              (VStr "2") VUndefined VUndefined "2" warm
              (mkEnvelope (Some (raw_space "2")) None None) (raw_space "2")
              eq_refl eq_refl eq_refl eq_refl eq_refl (or_intror eq_refl) eq_refl eq_refl)
    as [Hout [_ [Hcached _]]].
  split; [exact Hout|]. apply Hcached. discriminate.
Defined.

Lemma refetch_hits_cache_run :
  SpaceManager.fetch obliging (VObj [("space", VStr "2")])
    (snd (SpaceManager.fetch obliging (VObj [("space", VStr "2")]) warm))
  = SpaceManager.fetch obliging (VObj [("space", VStr "2")]) warm.
Proof.
  apply (refetch_hits_cache obliging (VObj [("space", VStr "2")])
           (VStr "2") VUndefined VUndefined "2" warm
           (mkEnvelope (Some (raw_space "2")) None None) (raw_space "2"));
    try reflexivity.
  discriminate.
Defined.

Lemma unresolvable_creator_rejected_run :
  SpaceManager.fetchByCreatorIds obliging (VObj [("users", VArr [VStr "7"; VStr "bob"])]) warm
  = (Throw (CustomTypeError USER_RESOLVE_ID ["fetch spaces of"]), warm).
Proof.
  apply (proj1 (unresolvable_creator_rejected obliging
                  (VObj [("users", VArr [VStr "7"; VStr "bob"])])
                  [VStr "7"; VStr "bob"] warm eq_refl eq_refl
                  (ex_intro _ (VStr "bob") (conj (or_intror (or_introl eq_refl)) eq_refl)))).
Defined.

Lemma incomplete_envelope_throws_run :
  SpaceManager.fetch barren (VObj [("spaces", VArr [VStr "1"])]) warm
    = (Throw (TypeError "rawSpaces is not iterable"),
       Effect.logged (SpaceManager.GetMultipleSpacesByIds ["1"]) warm)
  /\ SpaceManager.fetchByCreatorIds bare (VObj [("users", VArr [VStr "7"])]) warm
     = (Throw (TypeError "Cannot read properties of undefined (reading 'result_count')"),
        Effect.logged (SpaceManager.GetMultipleSpacesByCreatorIds ["7"]) warm).
Proof.
  split.
  - apply (proj1 (incomplete_envelope_throws barren (VObj [("spaces", VArr [VStr "1"])])
                    [VStr "1"] ["1"] warm no_results)); reflexivity.
  - apply (proj2 (incomplete_envelope_throws bare (VObj [("users", VArr [VStr "7"])])
                    [VStr "7"] ["7"] warm (mkEnvelope None None None))); reflexivity.
Defined.

Lemma search_checks_nothing_run :
  SpaceManager.search barren VNull warm = (Throw (TypeError "Cannot read properties"), warm)
  /\ SpaceManager.calls (snd (SpaceManager.search barren (VNum 5) warm))
     = [SpaceManager.GetMultipleSpacesBySearch VUndefined VUndefined VUndefined].
Proof.
  split.
  - apply (proj1 (search_checks_nothing barren VNull warm)). right. reflexivity.
  - apply (proj1 (proj2 (search_checks_nothing barren (VNum 5) warm))
             VUndefined VUndefined VUndefined); reflexivity.
Defined.

Lemma acquainted_keyed : Effect.keyed_by_user_id (UserManager.cache acquainted).
Proof.
  intros k u [H|[H|[]]]; inversion H; reflexivity.
Defined.

Lemma resolve_agrees_with_resolveID_run :
  UserManager.resolveID users acquainted (VStr "carol") = VStr "456".
Proof.
  apply (proj2 (resolve_agrees_with_resolveID users acquainted (VStr "carol") carol eq_refl)
           acquainted_keyed).
  discriminate.
Defined.

Lemma fetch_direct_routing_run :
  UserManager.calls (snd (UserManager.fetch users (VStr "123") acquainted))
    = [UserManager.FetchUserById (VStr "123")]
  /\ UserManager.calls (snd (UserManager.fetch users (VStr "bob") acquainted))
     = [UserManager.FetchUserByUsername (VStr "bob")].
Proof.
  split.
  - apply (proj1 (fetch_direct_routing users (VStr "123") acquainted)). reflexivity.
  - apply (proj2 (fetch_direct_routing users (VStr "bob") acquainted)); reflexivity.
Defined.

Lemma fetch_option_routing_run :
  UserManager.calls
    (snd (UserManager.fetch users (VObj [("user", VStr "carol")]) acquainted))
    = [UserManager.FetchUserById (VStr "carol")]
  /\ UserManager.calls
       (snd (UserManager.fetch users (VObj [("user", VStr "bob")]) acquainted))
     = [UserManager.FetchUserByUsername (VStr "bob")].
Proof.
  split.
  - apply (proj1 (fetch_option_routing users (VObj [("user", VStr "carol")]) (VStr "carol")
                    acquainted eq_refl ltac:(discriminate) eq_refl eq_refl eq_refl)).
    reflexivity.
  - apply (proj2 (fetch_option_routing users (VObj [("user", VStr "bob")]) (VStr "bob")
                    acquainted eq_refl ltac:(discriminate) eq_refl eq_refl eq_refl));
      reflexivity.
Defined.

Lemma fetch_ignores_unusable_options_run :
  UserManager.fetch users (VNum 5) acquainted = (Return VUndefined, acquainted)
  /\ UserManager.fetch users (VObj [("user", VNum 5)]) acquainted
     = (Return VUndefined, acquainted)
  /\ UserManager.fetch users VUndefined acquainted
     = (Throw (TypeError "Cannot read properties"), acquainted).
Proof.
  split; [|split].
  - apply (proj1 (fetch_ignores_unusable_options users (VNum 5) acquainted) VUndefined);
      [reflexivity | discriminate | reflexivity | left; reflexivity].
  - apply (proj1 (fetch_ignores_unusable_options users (VObj [("user", VNum 5)]) acquainted)
             (VNum 5));
      [reflexivity | discriminate | reflexivity |].
    right. split; [reflexivity | split; [reflexivity | discriminate]].
  - apply (proj2 (fetch_ignores_unusable_options users VUndefined acquainted)).
    left. reflexivity.
Defined.

Lemma fetch_calls_and_failure_run :
  UserManager.cache
    (snd (UserManager.fetch users_offline
            (VObj [("user", VArr [VStr "123"; VStr "bob"])]) acquainted))
  = UserManager.cache acquainted.
Proof.
  apply (proj2 (fetch_calls_and_failure users_offline
                  (VObj [("user", VArr [VStr "123"; VStr "bob"])]) acquainted)
           (RemoteApiError "503")).
  reflexivity.
Defined.

(** The torn envelope: space 2 is merged, the [null] after it stops the
    loop, space 3 is never reached. *)
Lemma null_element_stops_the_merge_run :
  fst (SpaceManager.fetch careless (VObj [("spaces", VArr [VStr "2"; VStr "3"])]) warm)
    = Throw Effect.null_element
  /\ Collection.get "2"
       (SpaceManager.cache
          (snd (SpaceManager.fetch careless
                  (VObj [("spaces", VArr [VStr "2"; VStr "3"])]) warm)))
     = Some space2
  /\ Collection.get "3"
       (SpaceManager.cache
          (snd (SpaceManager.fetch careless
                  (VObj [("spaces", VArr [VStr "2"; VStr "3"])]) warm)))
     = None.
Proof.
  destruct (null_element_stops_the_merge careless
              (VObj [("spaces", VArr [VStr "2"; VStr "3"])]) VUndefined
              [VStr "2"; VStr "3"] ["2"; "3"] warm torn
              [raw_space "2"] [Some (raw_space "3")]
              eq_refl eq_refl eq_refl eq_refl eq_refl eq_refl)
    as [Hout [_ [Hcached [Hframe _]]]].
  split; [exact Hout|]. split.
  - destruct (Hcached ltac:(discriminate) (raw_space "2") (or_introl eq_refl))
      as [raw' [[<-|[]] [_ Hget]]].
    exact Hget.
  - rewrite (Hframe "3"); [reflexivity|].
    intros [H|[]]. discriminate.
Defined.

(** C1 fails in the code of the user manager: user 123 is cached,
    [skipCacheCheck] is [false], and [fetch({ user: '123',
    skipCacheCheck: false })] as well as [fetch('123')] still call the
    ID endpoint; the cache is never looked at. *)
Theorem cached_user_is_fetched_again :
  Collection.get "123" (UserManager.cache acquainted) = Some alice
  /\ UserManager.calls
       (snd (UserManager.fetch users
               (VObj [("user", VStr "123"); ("skipCacheCheck", VBool false)]) acquainted))
     = [UserManager.FetchUserById (VStr "123")]
  /\ UserManager.calls (snd (UserManager.fetch users (VStr "123") acquainted))
     = [UserManager.FetchUserById (VStr "123")].
Proof. repeat split; reflexivity. Qed.







End MoreRuns.
